(** * Json::Object over a parsed document (source/common/json/json_loader.cc)

    A shallow embedding of [ObjectImplBase], [ObjectImplRoot] and [Factory]
    and of the part of the JSON library they call, with the properties of the
    typed accessors, of iteration, of hashing and of loading. *)

From Stdlib Require Import ZArith List String Ascii Bool Lia.
From Stdlib Require Import DecimalString DecimalZ.
Import ListNotations.
Local Open Scope string_scope.
Local Open Scope Z_scope.

(** ** Strings

    A [std::string] is a sequence of bytes with its length and may hold NUL
    bytes.  A [const char*] read by the callee up to the terminator sees only
    the bytes before the first NUL: that is [c_str]. *)

Definition NUL : ascii := "000"%char.

Fixpoint c_str (s : string) : string :=
  match s with
  | EmptyString => EmptyString
  | String c rest => if Ascii.eqb c NUL then EmptyString else String c (c_str rest)
  end.

(** [s] holds no NUL byte. *)
Fixpoint nul_free (s : string) : bool :=
  match s with
  | EmptyString => true
  | String c rest => negb (Ascii.eqb c NUL) && nul_free rest
  end.

(** ** Outcomes

    A member function returns, throws, or stops the process on a failed
    [RAPIDJSON_ASSERT]. *)

Inductive exn : Type :=
| Exception (what : string).

Inductive result (A : Type) : Type :=
| Return (a : A)
| Throw (e : exn)
| AssertionFailure.
Arguments Return {A} a.
Arguments Throw {A} e.
Arguments AssertionFailure {A}.

Definition bind {A B : Type} (r : result A) (k : A -> result B) : result B :=
  match r with
  | Return a => k a
  | Throw e => Throw e
  | AssertionFailure => AssertionFailure
  end.

Notation "x <- r ;; k" := (bind r (fun x => k))
  (at level 61, r at next level, right associativity).

Fixpoint mapM {A B : Type} (f : A -> result B) (l : list A) : result (list B) :=
  match l with
  | [] => Return []
  | a :: rest => b <- f a ;; bs <- mapM f rest ;; Return (b :: bs)
  end.

(** ** The document tree (rapidjson::Value) *)

(** A [double] is kept as its IEEE-754 binary64 bit pattern: the accessors
    move it around and never compute with it. *)
Record double : Type := mkDouble { bits : Z }.

#[local] Set Warnings "-register-all".

Inductive Value : Type :=
| VNull
| VBool (b : bool)
| VInteger (i : Z)
| VDouble (d : double)
| VString (s : string)
| VArray (elements : list Value)
| VObject (members : list (string * Value)).

Definition Member : Type := (string * Value)%type.

Module rapidjson.

Definition IsObject (v : Value) : bool :=
  match v with VObject _ => true | _ => false end.
Definition IsArray (v : Value) : bool :=
  match v with VArray _ => true | _ => false end.
Definition IsString (v : Value) : bool :=
  match v with VString _ => true | _ => false end.
Definition IsBool (v : Value) : bool :=
  match v with VBool _ => true | _ => false end.
Definition IsDouble (v : Value) : bool :=
  match v with VDouble _ => true | _ => false end.

(** An integer number carries the 64-bit signed flag when it fits
    [int64_t]; a literal between 2^63 and 2^64-1 is held unsigned only. *)
Definition IsInt64 (v : Value) : bool :=
  match v with
  | VInteger i => (- 2 ^ 63 <=? i) && (i <? 2 ^ 63)
  | _ => false
  end.

Definition GetBool (v : Value) : result bool :=
  match v with VBool b => Return b | _ => AssertionFailure end.

Definition GetInt64 (v : Value) : result Z :=
  if IsInt64 v then
    match v with VInteger i => Return i | _ => AssertionFailure end
  else AssertionFailure.

Definition GetDouble (v : Value) : result double :=
  match v with VDouble d => Return d | _ => AssertionFailure end.

(** [GetString] hands out a [const Ch*]; the caller that builds a
    [std::string] from it reads up to the first NUL. *)
Definition GetString (v : Value) : result string :=
  match v with VString s => Return (c_str s) | _ => AssertionFailure end.

Definition GetArray (v : Value) : result (list Value) :=
  match v with VArray l => Return l | _ => AssertionFailure end.

Definition GetObject (v : Value) : result (list Member) :=
  match v with VObject ms => Return ms | _ => AssertionFailure end.

Definition ObjectEmpty (v : Value) : result bool :=
  match v with
  | VObject ms => Return (match ms with [] => true | _ => false end)
  | _ => AssertionFailure
  end.

(** [FindMember(const Ch* name)], on the NUL-terminated [name]: a linear
    search from [MemberBegin()] that stops at the first member whose name
    has the length and the bytes of [name]; [None] is [MemberEnd()]. *)
Definition StringEqual (name : string) (m : Member) : bool :=
  String.eqb name (fst m).

Definition FindMember (v : Value) (name : string) : result (option Member) :=
  match v with
  | VObject ms => Return (find (StringEqual name) ms)
  | _ => AssertionFailure
  end.

Definition HasMember (v : Value) (name : string) : result bool :=
  member_itr <- FindMember v name ;;
  Return (match member_itr with Some _ => true | None => false end).

End rapidjson.

(** ** ObjectImplBase *)

(** A view: the diagnostic name and the node it borrows.  The tree is never
    written after parsing, so the borrowed reference is modelled by the node. *)
Record ObjectImplBase : Type := mkObject {
  name_ : string;
  value_ : Value
}.

(** A callback of [iterate] runs in the caller's state [S]: it returns the
    continue flag, or an exception leaves it. *)
Definition ObjectCallback (S : Type) : Type :=
  string -> ObjectImplBase -> S -> result bool * S.

(** [static const rapidjson::Value empty_rapid_json_value_(rapidjson::kObjectType)] *)
Definition empty_rapid_json_value_ : Value := VObject [].

Section Accessors.

Import rapidjson.

Variable this : ObjectImplBase.

Definition array_items (name : string) (elements : list Value) : list ObjectImplBase :=
  map (fun array_value => mkObject (name ++ " (array item)") array_value) elements.

(** [fmt::format("key '{}' missing or not <kind> in '{}'", name, name_)] *)
Definition missing_or_not (kind name : string) : exn :=
  Exception ("key '" ++ name ++ "' missing or not " ++ kind ++ " in '"
             ++ name_ this ++ "'").

Definition asObjectArray : result (list ObjectImplBase) :=
  if negb (IsArray (value_ this)) then
    Throw (Exception ("'" ++ name_ this ++ "' is not an array"))
  else
    elements <- GetArray (value_ this) ;;
    Return (array_items (name_ this) elements).

Definition getBoolean (name : string) : result bool :=
  member_itr <- FindMember (value_ this) (c_str name) ;;
  match member_itr with
  | Some (_, value) =>
      if negb (IsBool value) then
        Throw (missing_or_not "a boolean" name)
      else GetBool value
  | None =>
      Throw (missing_or_not "a boolean" name)
  end.

Definition getBoolean_default (name : string) (default_value : bool) : result bool :=
  has <- HasMember (value_ this) (c_str name) ;;
  if negb has then Return default_value else getBoolean name.

Definition getInteger (name : string) : result Z :=
  member_itr <- FindMember (value_ this) (c_str name) ;;
  match member_itr with
  | Some (_, value) =>
      if negb (IsInt64 value) then
        Throw (missing_or_not "an integer" name)
      else GetInt64 value
  | None =>
      Throw (missing_or_not "an integer" name)
  end.

Definition getInteger_default (name : string) (default_value : Z) : result Z :=
  has <- HasMember (value_ this) (c_str name) ;;
  if negb has then Return default_value else getInteger name.

Definition getObject (name : string) (allow_empty : bool) : result ObjectImplBase :=
  member_itr <- FindMember (value_ this) (c_str name) ;;
  match member_itr with
  | None =>
      if negb allow_empty then
        Throw (missing_or_not "an integer" name)
      else Return (mkObject name empty_rapid_json_value_)
  | Some (_, value) => Return (mkObject name value)
  end.

Definition getObjectArray (name : string) : result (list ObjectImplBase) :=
  member_itr <- FindMember (value_ this) (c_str name) ;;
  match member_itr with
  | Some (_, value) =>
      if negb (IsArray value) then
        Throw (missing_or_not "a array" name)
      else
        elements <- GetArray value ;;
        Return (array_items name elements)
  | None =>
      Throw (missing_or_not "a array" name)
  end.

Definition getString (name : string) : result string :=
  member_itr <- FindMember (value_ this) (c_str name) ;;
  match member_itr with
  | Some (_, value) =>
      if negb (IsString value) then
        Throw (missing_or_not "a string" name)
      else GetString value
  | None =>
      Throw (missing_or_not "a string" name)
  end.

Definition getString_default (name : string) (default_value : string) : result string :=
  has <- HasMember (value_ this) (c_str name) ;;
  if negb has then Return default_value else getString name.

(** The loop body of [getStringArray]: one element checked and pushed. *)
Definition string_array_item (name : string) (array_value : Value) : result string :=
  if negb (IsString array_value) then
    Throw (Exception ("array '" ++ name ++ "' does not contain all strings"))
  else GetString array_value.

Definition getStringArray (name : string) : result (list string) :=
  member_itr <- FindMember (value_ this) (c_str name) ;;
  match member_itr with
  | Some (_, value) =>
      if negb (IsArray value) then
        Throw (missing_or_not "an array" name)
      else
        elements <- GetArray value ;;
        mapM (string_array_item name) elements
  | None =>
      Throw (missing_or_not "an array" name)
  end.

Definition getDouble (name : string) : result double :=
  member_itr <- FindMember (value_ this) (c_str name) ;;
  match member_itr with
  | Some (_, value) =>
      if negb (IsDouble value) then
        Throw (missing_or_not "a double" name)
      else GetDouble value
  | None =>
      Throw (missing_or_not "a double" name)
  end.

Definition getDouble_default (name : string) (default_value : double) : result double :=
  has <- HasMember (value_ this) (c_str name) ;;
  if negb has then Return default_value else getDouble name.

(** The range-for of [iterate]: a view is built for the member, the
    callback is called on the member's name and the view, and the loop
    breaks when it does not ask to continue.  Name and view name come from
    [member.name.GetString()]. *)
Fixpoint iterate_members {S : Type} (callback : ObjectCallback S)
    (members : list Member) (s : S) : result unit * S :=
  match members with
  | [] => (Return tt, s)
  | member :: rest =>
      let object := mkObject (c_str (fst member)) (snd member) in
      match callback (c_str (fst member)) object s with
      | (Return need_continue, s') =>
          if negb need_continue then (Return tt, s')
          else iterate_members callback rest s'
      | (Throw e, s') => (Throw e, s')
      | (AssertionFailure, s') => (AssertionFailure, s')
      end
  end.

Definition iterate {S : Type} (callback : ObjectCallback S) (s : S) : result unit * S :=
  match GetObject (value_ this) with
  | Return members => iterate_members callback members s
  | Throw e => (Throw e, s)
  | AssertionFailure => (AssertionFailure, s)
  end.

Definition hasObject (name : string) : result bool :=
  HasMember (value_ this) (c_str name).

Definition asString : result string :=
  if negb (IsString (value_ this)) then
    Throw (Exception ("'" ++ name_ this ++ "' is not a string"))
  else GetString (value_ this).

(** [value_.IsObject() && value_.ObjectEmpty()]: the right operand is
    evaluated only when the left one holds. *)
Definition empty : result bool :=
  if IsObject (value_ this) then ObjectEmpty (value_ this) else Return false.

End Accessors.

(** ** hash(): the writer and the string hash *)

Module Writer.

Definition quote : ascii := "034"%char.
Definition backslash : ascii := "092"%char.

Definition hexDigits : list ascii :=
  list_ascii_of_string "0123456789ABCDEF".

Definition hex_digit (n : N) : ascii :=
  nth (N.to_nat n) hexDigits "0"%char.

(** The escape table of [WriteString]: control characters, the quotation
    mark and the backslash are escaped, every other byte is copied. *)
Definition escape (c : ascii) : string :=
  let n := N_of_ascii c in
  if (n <? 32)%N then
    String backslash
      (if (n =? 8)%N then "b"
       else if (n =? 9)%N then "t"
       else if (n =? 10)%N then "n"
       else if (n =? 12)%N then "f"
       else if (n =? 13)%N then "r"
       else "u00" ++ String (hex_digit (n / 16)) (String (hex_digit (n mod 16)) ""))
  else if Ascii.eqb c quote then String backslash (String quote "")
  else if Ascii.eqb c backslash then String backslash (String backslash "")
  else String c "".

Fixpoint escaped (s : string) : string :=
  match s with
  | EmptyString => EmptyString
  | String c rest => escape c ++ escaped rest
  end.

Definition WriteString (s : string) : string :=
  String quote (escaped s ++ String quote "").

(** [WriteInt], [WriteUint], [WriteInt64] and [WriteUint64] print the
    decimal digits, after a minus sign for a negative number. *)
Definition WriteInteger (i : Z) : string :=
  NilZero.string_of_int (Z.to_int i).

Definition IsNanOrInf (d : double) : bool :=
  Z.land (Z.shiftr (bits d) 52) 2047 =? 2047.

Section Accept.

(** The shortest-digits printing of a finite double ([internal::dtoa]). *)
Variable dtoa : double -> string.

(** [Value::Accept(writer)] on the output stream [os]: the walk stops at
    the first event the writer refuses, which is a NaN or an infinity. *)
Fixpoint Accept (v : Value) (os : string) : bool * string :=
  match v with
  | VNull => (true, os ++ "null")
  | VBool b => (true, os ++ (if b then "true" else "false"))
  | VInteger i => (true, os ++ WriteInteger i)
  | VDouble d => if IsNanOrInf d then (false, os) else (true, os ++ dtoa d)
  | VString s => (true, os ++ WriteString s)
  | VArray elements =>
      let fix values (l : list Value) (first : bool) (os : string) : bool * string :=
        match l with
        | [] => (true, os ++ "]")
        | e :: rest =>
            let (ok, os') := Accept e (if first then os else os ++ ",") in
            if ok then values rest false os' else (false, os')
        end in
      values elements true (os ++ "[")
  | VObject members =>
      let fix pairs (l : list Member) (first : bool) (os : string) : bool * string :=
        match l with
        | [] => (true, os ++ "}")
        | (name, value) :: rest =>
            let os1 := (if first then os else os ++ ",") ++ WriteString name in
            let (ok, os') := Accept value (os1 ++ ":") in
            if ok then pairs rest false os' else (false, os')
        end in
      pairs members true (os ++ "{")
  end.

(** The element loop of [Accept] on its own, for statements about it. *)
Fixpoint AcceptElements (l : list Value) (first : bool) (os : string) : bool * string :=
  match l with
  | [] => (true, os ++ "]")
  | e :: rest =>
      let (ok, os') := Accept e (if first then os else os ++ ",") in
      if ok then AcceptElements rest false os' else (false, os')
  end.

(** The member loop of [Accept] on its own, for statements about it. *)
Fixpoint AcceptMembers (l : list Member) (first : bool) (os : string) : bool * string :=
  match l with
  | [] => (true, os ++ "}")
  | (name, value) :: rest =>
      let os1 := (if first then os else os ++ ",") ++ WriteString name in
      let (ok, os') := Accept value (os1 ++ ":") in
      if ok then AcceptMembers rest false os' else (false, os')
  end.

(** [buffer.GetString()] after [value_.Accept(writer)]. *)
Definition GetString (v : Value) : string :=
  snd (Accept v "").

End Accept.

End Writer.

Section Hash.

Variable dtoa : double -> string.

(** [std::hash<std::string>], which the C++ library chooses; its result is
    a [size_t]. *)
Variable std_hash : string -> Z.

(** The text [hash()] digests: the [std::string] built from
    [buffer.GetString()]. *)
Definition serialization (this : ObjectImplBase) : string :=
  c_str (Writer.GetString dtoa (value_ this)).

Definition hash (this : ObjectImplBase) : Z :=
  std_hash (serialization this).

End Hash.

(** The string hash of GNU libstdc++ on a 64-bit target ([_Hash_bytes] with
    the seed of [std::hash]), one of the implementations [hash()] runs on. *)
Module Libstdcxx.

Definition wrap64 (z : Z) : Z := z mod 2 ^ 64.

Definition mul : Z := 0xc6a4a793 * 2 ^ 32 + 0x5bd1e995.
Definition seed : Z := 0xc70f6907.

Definition shift_mix (v : Z) : Z := Z.lxor v (Z.shiftr v 47).

(** Little-endian load of at most eight bytes. *)
Fixpoint load_bytes (p : list ascii) : Z :=
  match p with
  | [] => 0
  | c :: rest => Z.of_N (N_of_ascii c) + 256 * load_bytes rest
  end.

Fixpoint hash_loop (p : list ascii) (hash : Z) : Z :=
  match p with
  | c0 :: c1 :: c2 :: c3 :: c4 :: c5 :: c6 :: c7 :: rest =>
      let data :=
        wrap64 (shift_mix (wrap64 (load_bytes [c0; c1; c2; c3; c4; c5; c6; c7] * mul)) * mul) in
      hash_loop rest (wrap64 (Z.lxor hash data * mul))
  | [] => hash
  | tail => wrap64 (Z.lxor hash (load_bytes tail) * mul)
  end.

Definition Hash_bytes (s : string) : Z :=
  let p := list_ascii_of_string s in
  let len := Z.of_nat (List.length p) in
  let hash := hash_loop p (Z.lxor seed (wrap64 (len * mul))) in
  let hash := wrap64 (shift_mix hash * mul) in
  shift_mix hash.

End Libstdcxx.

(** ** Observing iterate

    To state which calls [iterate] makes, a callback is wrapped so that it
    also appends each call (the key, the view and what the callback answered)
    to a list kept beside its own state. *)

Definition Call : Type := (string * ObjectImplBase * result bool)%type.

Definition recording {S : Type} (callback : ObjectCallback S)
    : ObjectCallback (S * list Call) :=
  fun key object st =>
    let (r, s') := callback key object (fst st) in
    (r, (s', (snd st ++ [(key, object, r)])%list)).

(** The arguments [iterate] passes for a member. *)
Definition visit (member : Member) : string * ObjectImplBase :=
  (c_str (fst member), mkObject (c_str (fst member)) (snd member)).

(** The callback asked to go on. *)
Definition continues (r : result bool) : bool :=
  match r with Return true => true | _ => false end.

(** ** ObjectImplRoot and Factory *)

(** The root holds the parsed document and is a view of it named "root". *)
Record ObjectImplRoot : Type := mkRoot { root_ : Value }.

Definition root_view (r : ObjectImplRoot) : ObjectImplBase :=
  mkObject "root" (root_ r).

Module Sax.

(** The events a reader hands to its handler. *)
Inductive Event : Type :=
| Null | Bool | Int | Uint | Int64 | Uint64 | Double | RawNumber
| String | StartObject | Key | EndObject | StartArray | EndArray.

End Sax.

Definition LF : string := String "010"%char EmptyString.

(** [PrintHandler]: each member prints the event's name, followed by a
    newline but for [StartObject], and returns true. *)
Definition PrintHandler (e : Sax.Event) : string * bool :=
  match e with
  | Sax.Null => ("Null" ++ LF, true)
  | Sax.Bool => ("Bool" ++ LF, true)
  | Sax.Int => ("Int" ++ LF, true)
  | Sax.Uint => ("Uint" ++ LF, true)
  | Sax.Int64 => ("Int64" ++ LF, true)
  | Sax.Uint64 => ("Uint64" ++ LF, true)
  | Sax.Double => ("Double" ++ LF, true)
  | Sax.RawNumber => ("RawNumber" ++ LF, true)
  | Sax.String => ("String" ++ LF, true)
  | Sax.StartObject => ("StartObject", true)
  | Sax.Key => ("Key" ++ LF, true)
  | Sax.EndObject => ("EndObject" ++ LF, true)
  | Sax.StartArray => ("StartArray" ++ LF, true)
  | Sax.EndArray => ("EndArray" ++ LF, true)
  end.

Section Factory.

(** The parser is the JSON library's.  [Parse] is [Document::Parse<0>] on a
    NUL-terminated text: the parsed tree, or the offset and the code of the
    first error.  [Reader_events] lists the events the iterative reader
    delivers on that text until it completes or stops at an error. *)
Variable ParseErrorCode : Type.

Inductive ParseResult : Type :=
| Parsed (document : Value)
| HasParseError (offset : N) (code : ParseErrorCode).

Variable Parse : string -> ParseResult.
Variable GetParseError_En : ParseErrorCode -> string.
Variable Reader_events : string -> list Sax.Event.

(** [fmt::format("Error(offset {}): {}\n", offset, message)] *)
Definition parse_error_message (offset : N) (code : ParseErrorCode) : string :=
  "Error(offset " ++ NilZero.string_of_uint (N.to_uint offset) ++ "): "
    ++ GetParseError_En code ++ LF.

(** The first loop of [LoadFromString]: every event goes to the handler,
    and the reader stops when the handler returns false. *)
Fixpoint IterativeParse (events : list Sax.Event) (stdout : string) : string :=
  match events with
  | [] => stdout
  | e :: rest =>
      let (text, more) := PrintHandler e in
      if more then IterativeParse rest (stdout ++ text) else stdout ++ text
  end.

(** [Factory::LoadFromString]: what it prints and how it ends. *)
Definition LoadFromString (json : string) : string * result ObjectImplRoot :=
  let stdout := IterativeParse (Reader_events (c_str json)) "" in
  match Parse (c_str json) with
  | HasParseError offset code =>
      (stdout ++ "Parse error", Throw (Exception (parse_error_message offset code)))
  | Parsed document => (stdout, Return (mkRoot document))
  end.

End Factory.
Arguments Parsed {ParseErrorCode} document.
Arguments HasParseError {ParseErrorCode} offset code.

(** ** A reduced parser for closed examples

    The accessors are stated over any parser.  For examples that start from a
    text, this module gives one for a fragment of JSON: no fraction, exponent
    or negative zero in numbers (the library reads those as doubles), no
    integer outside -2^63 .. 2^64-1, no escape in strings.  It reads left to
    right with the events a SAX handler would see.  It accepts only JSON
    texts; a text outside the fragment is refused, with an error that need
    not be the library's. *)
Module MiniJson.

Inductive ParseErrorCode : Type :=
| kParseErrorDocumentEmpty
| kParseErrorDocumentRootNotSingular
| kParseErrorValueInvalid
| kParseErrorObjectMissName
| kParseErrorObjectMissColon
| kParseErrorObjectMissCommaOrCurlyBracket
| kParseErrorArrayMissCommaOrSquareBracket
| kParseErrorStringMissQuotationMark
| kParseErrorUnspecificSyntaxError.

Definition GetParseError_En (code : ParseErrorCode) : string :=
  match code with
  | kParseErrorDocumentEmpty => "The document is empty."
  | kParseErrorDocumentRootNotSingular =>
      "The document root must not be followed by other values."
  | kParseErrorValueInvalid => "Invalid value."
  | kParseErrorObjectMissName => "Missing a name for object member."
  | kParseErrorObjectMissColon => "Missing a colon after a name of object member."
  | kParseErrorObjectMissCommaOrCurlyBracket =>
      "Missing a comma or '}' after an object member."
  | kParseErrorArrayMissCommaOrSquareBracket =>
      "Missing a comma or ']' after an array element."
  | kParseErrorStringMissQuotationMark =>
      "Missing a closing quotation mark in string."
  | kParseErrorUnspecificSyntaxError => "Unspecific syntax error."
  end.

(** The reader's position: the text left, the offset reached and the events
    delivered so far, latest first. *)
Record stream : Type := mkStream {
  rest : list ascii;
  tell : N;
  delivered : list Sax.Event
}.

Inductive parsed (A : Type) : Type :=
| Got (a : A) (st : stream)
| Bad (code : ParseErrorCode) (st : stream).
Arguments Got {A} a st.
Arguments Bad {A} code st.

Definition take (st : stream) (tail : list ascii) (n : N) : stream :=
  mkStream tail (tell st + n) (delivered st).

Definition deliver (e : Sax.Event) (st : stream) : stream :=
  mkStream (rest st) (tell st) (e :: delivered st).

Definition is_space (c : ascii) : bool :=
  let n := N_of_ascii c in
  ((n =? 32) || (n =? 10) || (n =? 13) || (n =? 9))%N.

Definition is_digit (c : ascii) : bool :=
  let n := N_of_ascii c in ((48 <=? n) && (n <=? 57))%N.

Fixpoint skip (text : list ascii) (at_ : N) : list ascii * N :=
  match text with
  | c :: tail => if is_space c then skip tail (at_ + 1)%N else (text, at_)
  | [] => ([], at_)
  end.

Definition SkipWhitespace (st : stream) : stream :=
  let (text, at_) := skip (rest st) (tell st) in
  mkStream text at_ (delivered st).

(** The characters of a string up to its closing quotation mark. *)
Fixpoint string_body (text : list ascii) (at_ : N) (acc : string -> string)
    : option (string * list ascii * N) :=
  match text with
  | [] => None
  | c :: tail =>
      if Ascii.eqb c Writer.quote then Some (acc EmptyString, tail, (at_ + 1)%N)
      else if Ascii.eqb c Writer.backslash then None
      else if (N_of_ascii c <? 32)%N then None
      else string_body tail (at_ + 1)%N (fun s => acc (String c s))
  end.

Definition ParseString (st : stream) : parsed string :=
  match rest st with
  | c :: tail =>
      if Ascii.eqb c Writer.quote then
        match string_body tail (tell st + 1)%N (fun s => s) with
        | Some (s, text, at_) => Got s (mkStream text at_ (delivered st))
        | None => Bad kParseErrorStringMissQuotationMark st
        end
      else Bad kParseErrorValueInvalid st
  | [] => Bad kParseErrorValueInvalid st
  end.

Fixpoint digits (text : list ascii) (at_ : N) (acc : Z) : Z * list ascii * N :=
  match text with
  | c :: tail =>
      if is_digit c
      then digits tail (at_ + 1)%N (10 * acc + (Z.of_N (N_of_ascii c) - 48))
      else (acc, text, at_)
  | [] => (acc, [], at_)
  end.

(** The digits of an integer: a lone zero, or digits that do not begin
    with zero. *)
Definition integer_digits (text : list ascii) (at_ : N) : Z * list ascii * N :=
  match text with
  | "0"%char :: tail => (0, tail, (at_ + 1)%N)
  | _ => digits text at_ 0
  end.

(** An integer between -2^63 and 2^64-1, with the event of its width. *)
Definition ParseNumber (st : stream) : parsed Value :=
  let '(minus, text, at_) :=
    match rest st with
    | "-"%char :: tail => (true, tail, (tell st + 1)%N)
    | text => (false, text, tell st)
    end in
  match text with
  | c :: _ =>
      if is_digit c then
        let '(n, text', at') := integer_digits text at_ in
        let st' := mkStream text' at' (delivered st) in
        if minus then
          if (0 <? n) && (n <=? 2 ^ 63)
          then Got (VInteger (- n))
                   (deliver (if n <=? 2 ^ 31 then Sax.Int else Sax.Int64) st')
          else Bad kParseErrorUnspecificSyntaxError st
        else
          if n <? 2 ^ 64
          then Got (VInteger n)
                   (deliver (if n <? 2 ^ 32 then Sax.Uint else Sax.Uint64) st')
          else Bad kParseErrorUnspecificSyntaxError st
      else Bad kParseErrorValueInvalid st
  | [] => Bad kParseErrorValueInvalid st
  end.

Fixpoint ParseValue (fuel : nat) (st : stream) : parsed Value :=
  match fuel with
  | O => Bad kParseErrorUnspecificSyntaxError st
  | S fuel =>
      match rest st with
      | "n"%char :: "u"%char :: "l"%char :: "l"%char :: tail =>
          Got VNull (deliver Sax.Null (take st tail 4))
      | "t"%char :: "r"%char :: "u"%char :: "e"%char :: tail =>
          Got (VBool true) (deliver Sax.Bool (take st tail 4))
      | "f"%char :: "a"%char :: "l"%char :: "s"%char :: "e"%char :: tail =>
          Got (VBool false) (deliver Sax.Bool (take st tail 5))
      | "["%char :: tail =>
          let st := SkipWhitespace (deliver Sax.StartArray (take st tail 1)) in
          match rest st with
          | "]"%char :: tail => Got (VArray []) (deliver Sax.EndArray (take st tail 1))
          | _ => ParseElements fuel st []
          end
      | "{"%char :: tail =>
          let st := SkipWhitespace (deliver Sax.StartObject (take st tail 1)) in
          match rest st with
          | "}"%char :: tail => Got (VObject []) (deliver Sax.EndObject (take st tail 1))
          | _ => ParseMembers fuel st []
          end
      | c :: _ =>
          if Ascii.eqb c Writer.quote then
            match ParseString st with
            | Got s st => Got (VString s) (deliver Sax.String st)
            | Bad code st => Bad code st
            end
          else ParseNumber st
      | [] => Bad kParseErrorValueInvalid st
      end
  end

with ParseElements (fuel : nat) (st : stream) (acc : list Value) : parsed Value :=
  match fuel with
  | O => Bad kParseErrorUnspecificSyntaxError st
  | S fuel =>
      match ParseValue fuel st with
      | Bad code st => Bad code st
      | Got v st =>
          let st := SkipWhitespace st in
          match rest st with
          | ","%char :: tail =>
              ParseElements fuel (SkipWhitespace (take st tail 1)) (v :: acc)
          | "]"%char :: tail =>
              Got (VArray (rev (v :: acc))) (deliver Sax.EndArray (take st tail 1))
          | _ => Bad kParseErrorArrayMissCommaOrSquareBracket st
          end
      end
  end

with ParseMembers (fuel : nat) (st : stream) (acc : list Member) : parsed Value :=
  match fuel with
  | O => Bad kParseErrorUnspecificSyntaxError st
  | S fuel =>
      match rest st with
      | c :: _ =>
          if Ascii.eqb c Writer.quote then
            match ParseString st with
            | Bad code st => Bad code st
            | Got name st =>
                let st := SkipWhitespace (deliver Sax.Key st) in
                match rest st with
                | ":"%char :: tail =>
                    match ParseValue fuel (SkipWhitespace (take st tail 1)) with
                    | Bad code st => Bad code st
                    | Got v st =>
                        let st := SkipWhitespace st in
                        match rest st with
                        | ","%char :: tail =>
                            ParseMembers fuel (SkipWhitespace (take st tail 1))
                                         ((name, v) :: acc)
                        | "}"%char :: tail =>
                            Got (VObject (rev ((name, v) :: acc)))
                                (deliver Sax.EndObject (take st tail 1))
                        | _ => Bad kParseErrorObjectMissCommaOrCurlyBracket st
                        end
                    end
                | _ => Bad kParseErrorObjectMissColon st
                end
            end
          else Bad kParseErrorObjectMissName st
      | [] => Bad kParseErrorObjectMissName st
      end
  end.

(** A whole document: one value between optional white space. *)
Definition ParseDocument (text : string) : parsed Value :=
  let st := SkipWhitespace (mkStream (list_ascii_of_string text) 0 []) in
  match rest st with
  | [] => Bad kParseErrorDocumentEmpty st
  | _ =>
      match ParseValue (2 * S (String.length text)) st with
      | Bad code st => Bad code st
      | Got v st =>
          let st := SkipWhitespace st in
          match rest st with
          | [] => Got v st
          | _ => Bad kParseErrorDocumentRootNotSingular st
          end
      end
  end.

Definition Parse (text : string) : ParseResult ParseErrorCode :=
  match ParseDocument text with
  | Got v _ => Parsed v
  | Bad code st => HasParseError (tell st) code
  end.

Definition Reader_events (text : string) : list Sax.Event :=
  match ParseDocument text with
  | Got _ st => rev (delivered st)
  | Bad _ st => rev (delivered st)
  end.

Definition LoadFromString : string -> string * result ObjectImplRoot :=
  LoadFromString ParseErrorCode Parse GetParseError_En Reader_events.

End MiniJson.

(** ** Closed examples used below *)

Module Examples.

Definition q : string := String Writer.quote EmptyString.

(** A key and a string with a NUL byte in the middle: a, NUL, b. *)
Definition a_nul_b : string := String "a"%char (String NUL "b").

(** {"flag": true, "n": 7, "x": 1.5, "s": "str"}; 1.5 is 0x3FF8000000000000. *)
Definition one_and_a_half : double := mkDouble 0x3FF8000000000000.
Definition scalars : ObjectImplBase :=
  mkObject "root"
    (VObject [("flag", VBool true); ("n", VInteger 7);
              ("x", VDouble one_and_a_half); ("s", VString "str")]).

(** {"x":1,"y":2} *)
Definition xy : ObjectImplBase :=
  mkObject "root" (VObject [("x", VInteger 1); ("y", VInteger 2)]).

(** {"a":1,"a":2} *)
Definition twice : ObjectImplBase :=
  mkObject "root" (VObject [("a", VInteger 1); ("a", VInteger 2)]).

(** An object whose two members are both named a, NUL, b. *)
Definition twice_nul : ObjectImplBase :=
  mkObject "root" (VObject [(a_nul_b, VInteger 1); (a_nul_b, VInteger 2)]).

(** {"k": ["a", 2, "c"], "l": ["a", "b"], "e": []} *)
Definition arrays : ObjectImplBase :=
  mkObject "root"
    (VObject [("k", VArray [VString "a"; VInteger 2; VString "c"]);
              ("l", VArray [VString "a"; VString "b"]);
              ("e", VArray [])]).

(** An object whose member k is an array of the one string a, NUL, b. *)
Definition nul_strings : ObjectImplBase :=
  mkObject "root" (VObject [("k", VArray [VString a_nul_b])]).

(** A callback that notes each key and stops after the key [last]. *)
Definition note_until (last : string) : ObjectCallback (list string) :=
  fun key _ seen => (Return (negb (String.eqb key last)), (seen ++ [key])%list).

Definition bytes (codes : list nat) : string :=
  string_of_list_ascii (map ascii_of_nat codes).

(** An object of two members with different names and the object with the
same two members in the other order.  The second name and the second
value hold two letters each in UTF-8. *)
Definition name_1 : string := "memberf32pkzy6".
Definition text_1 : string := "valuerX2dkuwJ-------".
Definition name_2 : string := "memberf3uV" ++ bytes [208; 148; 209; 167]%nat.
Definition text_2 : string := "valuerXuJ" ++ bytes [208; 143; 207; 187]%nat ++ "-------".
Definition one_two : ObjectImplBase :=
  mkObject "root" (VObject [(name_1, VString text_1); (name_2, VString text_2)]).
Definition two_one : ObjectImplBase :=
  mkObject "root" (VObject [(name_2, VString text_2); (name_1, VString text_1)]).

(** {"a":1,"b":2} and {"b":2,"a":1} *)
Definition ab : ObjectImplBase :=
  mkObject "root" (VObject [("a", VInteger 1); ("b", VInteger 2)]).
Definition ba : ObjectImplBase :=
  mkObject "root" (VObject [("b", VInteger 2); ("a", VInteger 1)]).

(** A printing of doubles for the closed examples, none of which holds a
    double. *)
Definition no_dtoa : double -> string := fun _ => EmptyString.

(** The 2^64 + 1 documents 0, 1, ..., 2^64 - 1 and null. *)
Definition small_document (i : nat) : ObjectImplBase :=
  mkObject "root"
    (if Z.of_nat i <? 2 ^ 64 then VInteger (Z.of_nat i) else VNull).

End Examples.

(** ** Auxiliary definitions for the properties of the writer *)

(** The 256 bytes. *)
Definition all_ascii : list ascii := map ascii_of_nat (seq 0 256).

Fixpoint is_prefix (a b : string) : bool :=
  match a, b with
  | EmptyString, _ => true
  | String c a', String d b' => Ascii.eqb c d && is_prefix a' b'
  | String _ _, EmptyString => false
  end.

(** The escape of a byte is not empty, holds no NUL and does not begin with
    a quotation mark. *)
Definition escape_well_formed (c : ascii) : bool :=
  nul_free (Writer.escape c)
  && match Writer.escape c with
     | String h _ => negb (Ascii.eqb h Writer.quote)
     | EmptyString => false
     end.

(** The escapes of two different bytes do not begin one with the other. *)
Definition escape_prefix_free (c d : ascii) : bool :=
  Ascii.eqb c d
  || negb (is_prefix (Writer.escape c) (Writer.escape d)
           || is_prefix (Writer.escape d) (Writer.escape c)).

(** ** Comparing two ways to the same answer *)

(** Two outcomes agree when both return, and the same value, or both throw,
    or both fail an assertion; the texts of two exceptions may differ. *)
Definition same_outcome {A : Type} (r1 r2 : result A) : Prop :=
  match r1, r2 with
  | Return a, Return b => a = b
  | Throw _, Throw _ => True
  | AssertionFailure, AssertionFailure => True
  | _, _ => False
  end.

(** What a callback that never stops does to its state at a member. *)
Definition step {S : Type} (callback : ObjectCallback S) (s : S) (member : Member) : S :=
  snd (callback (c_str (fst member)) (mkObject (c_str (fst member)) (snd member)) s).

Module Samples.

(** A callback that notes each key and never stops. *)
Definition note_all : ObjectCallback (list string) :=
  fun key _ seen => (Return true, (seen ++ [key])%list).

(** [{"id": 1}, {"id": 2}, {"id": 3}] *)
Definition three : ObjectImplBase :=
  mkObject "root"
    (VArray [VObject [("id", VInteger 1)];
             VObject [("id", VInteger 2)];
             VObject [("id", VInteger 3)]]).

(** {"n": 7, "list": [{"id": 1}], "names": ["a", "b"], "s": "str"} *)
Definition mixed : ObjectImplBase :=
  mkObject "root"
    (VObject [("n", VInteger 7);
              ("list", VArray [VObject [("id", VInteger 1)]]);
              ("names", VArray [VString "a"; VString "b"]);
              ("s", VString "str")]).

End Samples.

(** How [iterate] ends after a call of the callback that ended as [r]. *)
Definition after_call (r : result bool) : result unit :=
  match r with
  | Return _ => Return tt
  | Throw e => Throw e
  | AssertionFailure => AssertionFailure
  end.

(** How [iterate] ends after the calls [calls]: as after the last of them. *)
Fixpoint after_calls (calls : list Call) : result unit :=
  match calls with
  | [] => Return tt
  | c :: rest =>
      match rest with
      | [] => after_call (snd c)
      | _ :: _ => after_calls rest
      end
  end.

Module Failing.

(** A callback that notes each key and throws at the key [bad]. *)
Definition throw_at (bad : string) : ObjectCallback (list string) :=
  fun key _ seen =>
    (if String.eqb key bad then Throw (Exception ("no " ++ key)) else Return true,
     (seen ++ [key])%list).

End Failing.

(** ** Objects and keys with a NUL byte *)

Module WithNul.

(** A key a, NUL, c. *)
Definition a_nul_c : string := String "a"%char (String NUL "c").

(** {"a": true} *)
Definition a_true : ObjectImplBase :=
  mkObject "root" (VObject [("a", VBool true)]).

(** An object whose one member, named a, NUL, b, is true. *)
Definition nul_true : ObjectImplBase :=
  mkObject "root" (VObject [(Examples.a_nul_b, VBool true)]).

(** An object with the member a, 5, and the member named a, NUL, b, 1.5. *)
Definition int_and_double : ObjectImplBase :=
  mkObject "root"
    (VObject [("a", VInteger 5); (Examples.a_nul_b, VDouble Examples.one_and_a_half)]).

(** {"a": 1} *)
Definition a_one : ObjectImplBase :=
  mkObject "root" (VObject [("a", VInteger 1)]).

(** {"a": ["x"]} *)
Definition a_strings : ObjectImplBase :=
  mkObject "root" (VObject [("a", VArray [VString "x"])]).

(** An object whose one member, named a, NUL, b, is an empty array. *)
Definition nul_array : ObjectImplBase :=
  mkObject "root" (VObject [(Examples.a_nul_b, VArray [])]).

(** An object with the members named a, NUL, b and a, NUL, c. *)
Definition nul_keys : ObjectImplBase :=
  mkObject "root" (VObject [(Examples.a_nul_b, VInteger 1); (a_nul_c, VInteger 2)]).


End WithNul.

(** ** Reading the offset out of the message of a parse error *)





(** ** The text of a tree without doubles

    For stating that the serialization determines the tree: the text the
    writer produces for a tree that holds no double, written as a function of
    the tree alone. *)

Fixpoint double_free (v : Value) : bool :=
  match v with
  | VDouble _ => false
  | VArray elements => forallb double_free elements
  | VObject members => forallb (fun m => double_free (snd m)) members
  | _ => true
  end.

Fixpoint text (v : Value) : string :=
  match v with
  | VNull => "null"
  | VBool b => if b then "true" else "false"
  | VInteger i => Writer.WriteInteger i
  | VDouble _ => ""
  | VString s => Writer.WriteString s
  | VArray elements =>
      let fix values (l : list Value) (first : bool) : string :=
        match l with
        | [] => "]"
        | e :: rest => (if first then "" else ",") ++ text e ++ values rest false
        end in
      "[" ++ values elements true
  | VObject members =>
      let fix pairs (l : list Member) (first : bool) : string :=
        match l with
        | [] => "}"
        | (name, value) :: rest =>
            (if first then "" else ",") ++ Writer.WriteString name ++ ":"
              ++ text value ++ pairs rest false
        end in
      "{" ++ pairs members true
  end.

Fixpoint text_elements (l : list Value) (first : bool) : string :=
  match l with
  | [] => "]"
  | e :: rest => (if first then "" else ",") ++ text e ++ text_elements rest false
  end.

Fixpoint text_members (l : list Member) (first : bool) : string :=
  match l with
  | [] => "}"
  | (name, value) :: rest =>
      (if first then "" else ",") ++ Writer.WriteString name ++ ":"
        ++ text value ++ text_members rest false
  end.

(** The kinds of trees, and the kind a first character announces. *)
Definition kind (v : Value) : nat :=
  match v with
  | VNull => 0
  | VBool _ => 1
  | VInteger _ => 2
  | VDouble _ => 3
  | VString _ => 4
  | VArray _ => 5
  | VObject _ => 6
  end.

Definition number_char (c : ascii) : bool :=
  let n := N_of_ascii c in ((n =? 45) || ((48 <=? n) && (n <=? 57)))%N.

Definition kind_of_char (c : ascii) : nat :=
  if Ascii.eqb c "n" then 0
  else if Ascii.eqb c "t" || Ascii.eqb c "f" then 1
  else if number_char c then 2
  else if Ascii.eqb c Writer.quote then 4
  else if Ascii.eqb c "[" then 5
  else if Ascii.eqb c "{" then 6
  else 7.

Fixpoint all_chars (p : ascii -> bool) (s : string) : bool :=
  match s with
  | EmptyString => true
  | String c rest => p c && all_chars p rest
  end.

(** What may follow a value: nothing, or a character that is not of a
    number. *)
Definition delimited (r : string) : bool :=
  match r with
  | EmptyString => true
  | String c _ => negb (number_char c)
  end.

(** The text of [v], followed by something that is not of a number, tells [v]
    and what follows. *)
Definition read_back (v : Value) : Prop :=
  double_free v = true ->
  forall (v' : Value) (r r' : string),
    double_free v' = true -> delimited r = true -> delimited r' = true ->
    text v ++ r = text v' ++ r' -> v = v' /\ r = r'.

(** * Properties *)

(** ** Lookup *)

Lemma c_str_nul_free (s : string) : nul_free s = true -> c_str s = s.
Proof.
  induction s as [|c rest IH]; simpl; [reflexivity|].
  destruct (Ascii.eqb c NUL); simpl; [discriminate|].
  intros H. now rewrite IH.
Qed.

(** [find] on a sequence split at the first member with the name. *)
Lemma find_first_match (name : string) (before after : list Member) (v : Value) :
  ~ In name (map fst before) ->
  find (rapidjson.StringEqual name) (before ++ (name, v) :: after) = Some (name, v).
Proof.
  unfold rapidjson.StringEqual.
  induction before as [|[n w] before IH]; simpl; intros Hnot.
  - now rewrite String.eqb_refl.
  - destruct (String.eqb name n) eqn:E.
    + apply String.eqb_eq in E. exfalso. apply Hnot. now left.
    + apply IH. intros Hin. apply Hnot. now right.
Qed.

Lemma find_none_iff (name : string) (members : list Member) :
  find (rapidjson.StringEqual name) members = None <-> ~ In name (map fst members).
Proof.
  unfold rapidjson.StringEqual.
  induction members as [|[n w] members IH]; simpl.
  - tauto.
  - destruct (String.eqb name n) eqn:E.
    + apply String.eqb_eq in E. split; [discriminate|]. intros H. exfalso. apply H. now left.
    + apply String.eqb_neq in E. rewrite IH. split.
      * intros H [H1|H1]; [congruence|tauto].
      * intros H H1. apply H. now right.
Qed.

(** For a key without a NUL byte, [hasObject] is plain membership of the key
    among the member names. *)
Lemma hasObject_false_iff (this : ObjectImplBase) (members : list Member) (k : string) :
  value_ this = VObject members -> nul_free k = true ->
  (hasObject this k = Return false <-> ~ In k (map fst members)).
Proof.
  intros Hv Hk. unfold hasObject, rapidjson.HasMember, rapidjson.FindMember.
  rewrite Hv, (c_str_nul_free k Hk). simpl.
  rewrite <- find_none_iff.
  destruct (find (rapidjson.StringEqual k) members); split; congruence.
Qed.

(** What [hasObject] says about the lookup every accessor starts with. *)
Lemma hasObject_false_lookup (this : ObjectImplBase) (k : string) :
  hasObject this k = Return false ->
  rapidjson.FindMember (value_ this) (c_str k) = Return None.
Proof.
  unfold hasObject, rapidjson.HasMember.
  destruct (rapidjson.FindMember (value_ this) (c_str k)) as [[m|]| |]; simpl;
    congruence.
Qed.

Lemma hasObject_true_lookup (this : ObjectImplBase) (k : string) :
  hasObject this k = Return true ->
  exists m, rapidjson.FindMember (value_ this) (c_str k) = Return (Some m).
Proof.
  unfold hasObject, rapidjson.HasMember.
  destruct (rapidjson.FindMember (value_ this) (c_str k)) as [[m|]| |]; simpl;
    try congruence.
  intros _. now exists m.
Qed.

(** ** empty() *)

(** C8: [empty()] returns on every node, and returns true exactly on an object
    without members; an array, even an empty one, a string, a number, a
    boolean and null give false. *)
Theorem empty_iff_object_without_members :
  forall this : ObjectImplBase,
    (exists b, empty this = Return b)
    /\ (empty this = Return true <-> value_ this = VObject [])
    /\ (forall elements, value_ this = VArray elements -> empty this = Return false)
    /\ (forall s, value_ this = VString s -> empty this = Return false)
    /\ (forall i, value_ this = VInteger i -> empty this = Return false)
    /\ (forall d, value_ this = VDouble d -> empty this = Return false)
    /\ (forall b, value_ this = VBool b -> empty this = Return false)
    /\ (value_ this = VNull -> empty this = Return false).
Proof.
  intros [name v]. unfold empty. simpl.
  split; [|split].
  - destruct v as [| | | | | |[|m ms]]; simpl; eauto.
  - destruct v as [| | | | | |[|m ms]]; simpl; split; congruence.
  - repeat split; intros; subst; reflexivity.
Qed.

(** ** Arrays of objects *)

(** In terms of the lookup: an array without elements is an array: [asObjectArray] on it and
    [getObjectArray] on a key that leads to it return the empty sequence, and
    the two fail only where there is no array (for [getObjectArray], also
    where there is no member). *)
Theorem empty_array_gives_empty_sequence :
  forall (this : ObjectImplBase) (k : string),
    (value_ this = VArray [] -> asObjectArray this = Return [])
    /\ (forall n, rapidjson.FindMember (value_ this) (c_str k) = Return (Some (n, VArray []))
                  -> getObjectArray this k = Return [])
    /\ (forall e, asObjectArray this = Throw e ->
                  rapidjson.IsArray (value_ this) = false
                  /\ e = Exception ("'" ++ name_ this ++ "' is not an array"))
    /\ (forall e, getObjectArray this k = Throw e ->
                  e = missing_or_not this "a array" k
                  /\ (rapidjson.FindMember (value_ this) (c_str k) = Return None
                      \/ exists n v, rapidjson.FindMember (value_ this) (c_str k)
                                     = Return (Some (n, v))
                                     /\ rapidjson.IsArray v = false))
    /\ (forall elements, value_ this = VArray elements ->
                  asObjectArray this = Return (array_items (name_ this) elements))
    /\ (forall n elements,
           rapidjson.FindMember (value_ this) (c_str k) = Return (Some (n, VArray elements)) ->
           getObjectArray this k = Return (array_items k elements)).
Proof.
  intros [name v] k. simpl.
  split; [|split; [|split; [|split; [|split]]]].
  - intros ->. reflexivity.
  - intros n H. unfold getObjectArray. simpl. rewrite H. reflexivity.
  - intros e H. unfold asObjectArray in H. simpl in H.
    destruct v; simpl in *; split; congruence.
  - intros e H. unfold getObjectArray in H. simpl in H.
    destruct (rapidjson.FindMember v (c_str k)) as [[[n w]|]|e'|] eqn:E; simpl in H;
      try congruence.
    3: { destruct v; simpl in E; congruence. }
    + assert (Hw : rapidjson.IsArray w = false)
        by (destruct w; simpl in *; congruence).
      rewrite Hw in H. simpl in H. split; [congruence|].
      right. now exists n, w.
    + split; [congruence|now left].
  - intros elements ->. reflexivity.
  - intros n elements H. unfold getObjectArray. simpl. rewrite H. reflexivity.
Qed.

(** ** getObject on an absent key *)

Lemma iterate_no_member {S : Type} (name : string) (callback : ObjectCallback S) (s : S) :
  iterate (mkObject name empty_rapid_json_value_) callback s = (Return tt, s).
Proof. reflexivity. Qed.

(** In terms of [hasObject]: on a key for which it says false, [getObject] with [allow_empty]
    returns a view of the shared empty object, for which [empty()] is true
    and [iterate] calls nothing; without [allow_empty] it throws the
    exception for a missing key. *)
Theorem getObject_absent_key (this : ObjectImplBase) (k : string) :
  hasObject this k = Return false ->
  (exists object,
      getObject this k true = Return object
      /\ value_ object = empty_rapid_json_value_
      /\ value_ object = VObject []
      /\ empty object = Return true
      /\ (forall (S : Type) (callback : ObjectCallback S) (s : S),
             iterate object callback s = (Return tt, s)
             /\ iterate object (recording callback) (s, []) = (Return tt, (s, []))))
  /\ getObject this k false = Throw (missing_or_not this "an integer" k).
Proof.
  intros H. apply hasObject_false_lookup in H.
  unfold getObject. rewrite H. simpl. split; [|reflexivity].
  exists (mkObject k empty_rapid_json_value_).
  repeat split.
Qed.

Lemma getObject_absent_key_witness :
  hasObject Examples.xy "z" = Return false
  /\ (exists object,
         getObject Examples.xy "z" true = Return object
         /\ value_ object = empty_rapid_json_value_
         /\ value_ object = VObject []
         /\ empty object = Return true
         /\ (forall (S : Type) (callback : ObjectCallback S) (s : S),
                iterate object callback s = (Return tt, s)
                /\ iterate object (recording callback) (s, []) = (Return tt, (s, []))))
  /\ getObject Examples.xy "z" false
     = Throw (Exception "key 'z' missing or not an integer in 'root'").
Proof.
  split; [reflexivity|].
  exact (getObject_absent_key Examples.xy "z" eq_refl).
Defined.

(** ** Defaulted accessors *)

(** In terms of [hasObject]: a defaulted accessor returns the default when
    it says false and is the strict accessor when it says true; a present value of another
    type makes both throw the same exception. *)
Theorem defaulted_accessors_cover_absence_only :
  forall (this : ObjectImplBase) (k : string),
    (hasObject this k = Return false ->
       (forall d, getBoolean_default this k d = Return d)
       /\ (forall d, getInteger_default this k d = Return d)
       /\ (forall d, getString_default this k d = Return d)
       /\ (forall d, getDouble_default this k d = Return d))
    /\ (hasObject this k = Return true ->
       (forall d, getBoolean_default this k d = getBoolean this k)
       /\ (forall d, getInteger_default this k d = getInteger this k)
       /\ (forall d, getString_default this k d = getString this k)
       /\ (forall d, getDouble_default this k d = getDouble this k))
    /\ (forall n v, rapidjson.FindMember (value_ this) (c_str k) = Return (Some (n, v)) ->
       (rapidjson.IsBool v = false ->
          getBoolean this k = Throw (missing_or_not this "a boolean" k)
          /\ forall d, getBoolean_default this k d = Throw (missing_or_not this "a boolean" k))
       /\ (rapidjson.IsInt64 v = false ->
          getInteger this k = Throw (missing_or_not this "an integer" k)
          /\ forall d, getInteger_default this k d = Throw (missing_or_not this "an integer" k))
       /\ (rapidjson.IsString v = false ->
          getString this k = Throw (missing_or_not this "a string" k)
          /\ forall d, getString_default this k d = Throw (missing_or_not this "a string" k))
       /\ (rapidjson.IsDouble v = false ->
          getDouble this k = Throw (missing_or_not this "a double" k)
          /\ forall d, getDouble_default this k d = Throw (missing_or_not this "a double" k))).
Proof.
  intros this k. split; [|split].
  - intros H. apply hasObject_false_lookup in H.
    unfold getBoolean_default, getInteger_default, getString_default, getDouble_default,
      rapidjson.HasMember.
    rewrite H. simpl. repeat split.
  - intros H. apply hasObject_true_lookup in H. destruct H as [m H].
    unfold getBoolean_default, getInteger_default, getString_default, getDouble_default,
      rapidjson.HasMember.
    rewrite H. simpl. repeat split.
  - intros n v H.
    unfold getBoolean_default, getInteger_default, getString_default, getDouble_default,
      getBoolean, getInteger, getString, getDouble, rapidjson.HasMember.
    rewrite H. cbn [bind negb].
    repeat split; intros; match goal with E : _ = false |- _ => rewrite E end; reflexivity.
Qed.

Example getBoolean_default_absent :
  getBoolean_default Examples.scalars "missing" false = Return false
  /\ getBoolean Examples.scalars "missing"
     = Throw (Exception "key 'missing' missing or not a boolean in 'root'").
Proof. split; reflexivity. Qed.

Example getBoolean_default_present :
  getBoolean_default Examples.scalars "flag" false = Return true
  /\ getBoolean Examples.scalars "flag" = Return true.
Proof. split; reflexivity. Qed.

Example getBoolean_default_wrong_type :
  getBoolean_default Examples.scalars "n" false
  = Throw (Exception "key 'n' missing or not a boolean in 'root'")
  /\ getBoolean Examples.scalars "n"
     = Throw (Exception "key 'n' missing or not a boolean in 'root'")
  /\ getString_default Examples.scalars "n" "none"
     = Throw (Exception "key 'n' missing or not a string in 'root'").
Proof. repeat split. Qed.

(** ** Integers and doubles *)

(** In terms of the lookup: [getInteger] throws on a member that is a double and [getDouble]
    throws on a member that is an integer; what [getInteger] returns is the
    integer of an integer member that fits [int64_t], and what [getDouble]
    returns is the double of a double member. *)
Theorem numeric_kinds_are_not_interchangeable :
  forall (this : ObjectImplBase) (k : string),
    (forall n d, rapidjson.FindMember (value_ this) (c_str k) = Return (Some (n, VDouble d)) ->
                 getInteger this k = Throw (missing_or_not this "an integer" k))
    /\ (forall n i, rapidjson.FindMember (value_ this) (c_str k) = Return (Some (n, VInteger i)) ->
                 getDouble this k = Throw (missing_or_not this "a double" k))
    /\ (forall i, getInteger this k = Return i ->
                 - 2 ^ 63 <= i < 2 ^ 63
                 /\ exists n, rapidjson.FindMember (value_ this) (c_str k)
                              = Return (Some (n, VInteger i)))
    /\ (forall d, getDouble this k = Return d ->
                 exists n, rapidjson.FindMember (value_ this) (c_str k)
                           = Return (Some (n, VDouble d))).
Proof.
  intros this k.
  assert (Hint : forall i, getInteger this k = Return i ->
            rapidjson.IsInt64 (VInteger i) = true
            /\ exists n, rapidjson.FindMember (value_ this) (c_str k)
                         = Return (Some (n, VInteger i))).
  { intros i H. unfold getInteger, bind in H.
    destruct (rapidjson.FindMember (value_ this) (c_str k)) as [[[n v]|]| |];
      try discriminate.
    destruct (rapidjson.IsInt64 v) eqn:E; cbn [negb] in H; [|discriminate].
    unfold rapidjson.GetInt64 in H. rewrite E in H.
    destruct v; try discriminate.
    injection H as <-. split; [exact E|now exists n]. }
  split; [|split; [|split]].
  - intros n d H. unfold getInteger. rewrite H. reflexivity.
  - intros n i H. unfold getDouble. rewrite H. reflexivity.
  - intros i H. destruct (Hint i H) as [E Hn]. split; [|exact Hn].
    unfold rapidjson.IsInt64 in E. apply andb_prop in E. destruct E as [E1 E2].
    apply Z.leb_le in E1. apply Z.ltb_lt in E2. split; assumption.
  - intros d H. unfold getDouble, bind in H.
    destruct (rapidjson.FindMember (value_ this) (c_str k)) as [[[n v]|]| |];
      try discriminate.
    destruct v; cbn in H; try discriminate.
    injection H as <-. now exists n.
Qed.

Example getInteger_getDouble_on_numbers :
  getInteger Examples.scalars "n" = Return 7
  /\ getDouble Examples.scalars "n"
     = Throw (Exception "key 'n' missing or not a double in 'root'")
  /\ getDouble Examples.scalars "x" = Return Examples.one_and_a_half
  /\ getInteger Examples.scalars "x"
     = Throw (Exception "key 'x' missing or not an integer in 'root'").
Proof. repeat split. Qed.

(** An integer from 2^63 on is held unsigned only: neither accessor returns it. *)
Example getInteger_above_int64 :
  getInteger (mkObject "root" (VObject [("big", VInteger (2 ^ 63))])) "big"
  = Throw (Exception "key 'big' missing or not an integer in 'root'")
  /\ getDouble (mkObject "root" (VObject [("big", VInteger (2 ^ 63))])) "big"
     = Throw (Exception "key 'big' missing or not a double in 'root'").
Proof. split; reflexivity. Qed.

(** ** getStringArray *)

Lemma string_array_all_strings (name : string) (strings : list string) :
  mapM (string_array_item name) (map VString strings) = Return (map c_str strings).
Proof.
  induction strings as [|s strings IH]; simpl; [reflexivity|].
  rewrite IH. reflexivity.
Qed.

Lemma string_array_not_all_strings (name : string) (elements : list Value) :
  existsb (fun e => negb (rapidjson.IsString e)) elements = true ->
  mapM (string_array_item name) elements
  = Throw (Exception ("array '" ++ name ++ "' does not contain all strings")).
Proof.
  induction elements as [|e elements IH]; simpl; [discriminate|].
  unfold string_array_item at 1.
  destruct (rapidjson.IsString e) eqn:E; simpl.
  - intros H. destruct e; try discriminate E. simpl. rewrite (IH H). reflexivity.
  - reflexivity.
Qed.

Lemma map_c_str_nul_free (strings : list string) :
  forallb nul_free strings = true -> map c_str strings = strings.
Proof.
  induction strings as [|s strings IH]; simpl; [reflexivity|].
  intros H. apply andb_prop in H. destruct H as [Hs H].
  now rewrite (c_str_nul_free s Hs), (IH H).
Qed.

(** In terms of the lookup: [getStringArray] throws the exception for a
    missing array when the key is absent or leads to something else than an
    array, throws another exception when an element of the array is not a
    string, and otherwise returns the strings in array order, each one read
    up to its first NUL byte, which is the whole string when it holds none. *)
Theorem getStringArray_outcomes :
  forall (this : ObjectImplBase) (k : string),
    (hasObject this k = Return false ->
       getStringArray this k = Throw (missing_or_not this "an array" k))
    /\ (forall n v, rapidjson.FindMember (value_ this) (c_str k) = Return (Some (n, v)) ->
          rapidjson.IsArray v = false ->
          getStringArray this k = Throw (missing_or_not this "an array" k))
    /\ (forall n elements,
          rapidjson.FindMember (value_ this) (c_str k) = Return (Some (n, VArray elements)) ->
          existsb (fun e => negb (rapidjson.IsString e)) elements = true ->
          getStringArray this k
          = Throw (Exception ("array '" ++ k ++ "' does not contain all strings")))
    /\ (forall n strings,
          rapidjson.FindMember (value_ this) (c_str k)
          = Return (Some (n, VArray (map VString strings))) ->
          getStringArray this k = Return (map c_str strings)
          /\ (forallb nul_free strings = true -> getStringArray this k = Return strings))
    /\ missing_or_not this "an array" k
       <> Exception ("array '" ++ k ++ "' does not contain all strings").
Proof.
  intros this k. split; [|split; [|split; [|split]]].
  - intros H. apply hasObject_false_lookup in H.
    unfold getStringArray. rewrite H. reflexivity.
  - intros n v H Hv. unfold getStringArray. rewrite H. simpl. rewrite Hv. reflexivity.
  - intros n elements H Hex. unfold getStringArray. rewrite H. simpl.
    now apply string_array_not_all_strings.
  - intros n strings H.
    assert (E : getStringArray this k = Return (map c_str strings)).
    { unfold getStringArray. rewrite H. simpl. apply string_array_all_strings. }
    split; [exact E|].
    intros Hnul. rewrite E. now rewrite map_c_str_nul_free.
  - unfold missing_or_not. simpl. discriminate.
Qed.

(** An array whose string holds a NUL byte: the
    array of the one string a, NUL, b comes back as the array of the string a. *)
Lemma getStringArray_cuts_at_NUL :
  rapidjson.FindMember (value_ Examples.nul_strings) (c_str "k")
  = Return (Some ("k", VArray (map VString [Examples.a_nul_b])))
  /\ getStringArray Examples.nul_strings "k" = Return ["a"]
  /\ getStringArray Examples.nul_strings "k" <> Return [Examples.a_nul_b].
Proof.
  split; [reflexivity|]. split; [reflexivity|]. discriminate.
Qed.

Example getStringArray_mixed :
  getStringArray Examples.arrays "k"
  = Throw (Exception "array 'k' does not contain all strings").
Proof. reflexivity. Qed.

Example getStringArray_strings :
  getStringArray Examples.arrays "l" = Return ["a"; "b"].
Proof. reflexivity. Qed.

Example getStringArray_absent :
  getStringArray Examples.arrays "zz"
  = Throw (Exception "key 'zz' missing or not an array in 'root'").
Proof. reflexivity. Qed.

(** ** First match wins *)

(** C7, as the code has it: the key is read up to its first NUL byte (all of
    it when it holds none), and every accessor answers from the first member,
    in declaration order, that has this name: the members before it and after
    it, and so a later member of the same name, change nothing. *)
Theorem lookup_resolves_first_match
    (name : string) (before after : list Member) (k : string) (v : Value) :
  ~ In (c_str k) (map fst before) ->
  let this := mkObject name (VObject (before ++ (c_str k, v) :: after)) in
  let only := mkObject name (VObject [(c_str k, v)]) in
  rapidjson.FindMember (value_ this) (c_str k) = Return (Some (c_str k, v))
  /\ hasObject this k = Return true
  /\ getBoolean this k = getBoolean only k
  /\ getInteger this k = getInteger only k
  /\ getDouble this k = getDouble only k
  /\ getString this k = getString only k
  /\ (forall d, getBoolean_default this k d = getBoolean only k)
  /\ (forall d, getInteger_default this k d = getInteger only k)
  /\ (forall d, getDouble_default this k d = getDouble only k)
  /\ (forall d, getString_default this k d = getString only k)
  /\ (forall allow_empty, getObject this k allow_empty = Return (mkObject k v))
  /\ getObjectArray this k = getObjectArray only k
  /\ getStringArray this k = getStringArray only k
  /\ (nul_free k = true -> c_str k = k).
Proof.
  intros Hnot this only.
  assert (Hthis : rapidjson.FindMember (value_ this) (c_str k) = Return (Some (c_str k, v))).
  { simpl. f_equal. now apply find_first_match. }
  assert (Honly : rapidjson.FindMember (value_ only) (c_str k) = Return (Some (c_str k, v))).
  { simpl. f_equal. apply (find_first_match (c_str k) [] []). simpl. tauto. }
  unfold hasObject, getBoolean_default, getInteger_default, getDouble_default,
    getString_default, getBoolean, getInteger, getDouble, getString, getObject,
    getObjectArray, getStringArray, rapidjson.HasMember, missing_or_not.
  rewrite Hthis, Honly.
  repeat (split; [reflexivity || (intros; reflexivity)|]).
  apply c_str_nul_free.
Qed.

Lemma lookup_resolves_first_match_witness :
  ~ In (c_str "a") (map fst (@nil Member))
  /\ getInteger Examples.twice "a" = Return 1
  /\ getInteger_default Examples.twice "a" 0 = Return 1
  /\ getObject Examples.twice "a" false = Return (mkObject "a" (VInteger 1)).
Proof.
  assert (Hnot : ~ In (c_str "a") (map fst (@nil Member))) by (simpl; tauto).
  pose proof (lookup_resolves_first_match "root" [] [("a", VInteger 2)] "a" (VInteger 1) Hnot)
    as H.
  cbv zeta in H.
  destruct H as (_ & _ & _ & Hi & _ & _ & _ & Hd & _ & _ & Ho & _).
  split; [exact Hnot|]. split; [exact Hi|]. split; [exact (Hd 0)|]. exact (Ho false).
Defined.

(** C7, as stated, fails for a key that holds a NUL byte: in the object whose
    two members are both named a, NUL, b this name is looked up as a, which
    no member has. *)
Lemma lookup_of_key_with_NUL :
  value_ Examples.twice_nul
  = VObject [(Examples.a_nul_b, VInteger 1); (Examples.a_nul_b, VInteger 2)]
  /\ hasObject Examples.twice_nul Examples.a_nul_b = Return false
  /\ getInteger Examples.twice_nul Examples.a_nul_b
     = Throw (missing_or_not Examples.twice_nul "an integer" Examples.a_nul_b)
  /\ getInteger_default Examples.twice_nul Examples.a_nul_b 0 = Return 0.
Proof. repeat split. Qed.

(** ** iterate *)

(** The loop ends at a call that does not ask to continue. *)
Ltac stopped_at member r :=
  exists 1%nat, [(visit member, r)];
  split; [reflexivity|]; split; [reflexivity|];
  right; exists [], (visit member, r);
  split; [reflexivity|]; split; [constructor|reflexivity].

Lemma iterate_members_recording {S : Type} (callback : ObjectCallback S)
    (members : list Member) :
  forall (s : S) (calls0 : list Call),
  exists (n : nat) (calls : list Call),
    iterate_members (recording callback) members (s, calls0)
    = (fst (iterate_members callback members s),
       (snd (iterate_members callback members s), (calls0 ++ calls)%list))
    /\ map fst calls = map visit (firstn n members)
    /\ ((n = List.length members /\ Forall (fun c => continues (snd c) = true) calls)
        \/ exists init c,
             calls = (init ++ [c])%list
             /\ Forall (fun c => continues (snd c) = true) init
             /\ continues (snd c) = false).
Proof.
  induction members as [|member rest IH]; intros s calls0.
  - exists 0%nat, []. simpl. rewrite app_nil_r. split; [reflexivity|].
    split; [reflexivity|]. left. split; [reflexivity|constructor].
  - cbn [iterate_members]. unfold recording at 1. cbn [fst snd].
    destruct (callback (c_str (fst member))
                (mkObject (c_str (fst member)) (snd member)) s) as [r s1] eqn:Ecb.
    destruct r as [[|]|e|]; cbn [negb fst snd].
    + (* the callback asks to go on *)
      destruct (IH s1 (calls0 ++ [(visit member, Return true)])%list)
        as (n & calls & Hrun & Hmap & Hend).
      exists (Datatypes.S n), ((visit member, Return true) :: calls).
      unfold visit at 1 in Hrun. rewrite Hrun.
      split; [now rewrite <- app_assoc|].
      split; [simpl; now rewrite Hmap|].
      destruct Hend as [[Hn Hall]|(init & c' & Hc & Hinit & Hlast)].
      * left. split; [simpl; now rewrite Hn|]. constructor; [reflexivity|exact Hall].
      * right. exists ((visit member, Return true) :: init), c'.
        split; [simpl; now rewrite Hc|].
        split; [constructor; [reflexivity|exact Hinit]|exact Hlast].
    + stopped_at member (@Return bool false).
    + stopped_at member (@Throw bool e).
    + stopped_at member (@AssertionFailure bool).
Qed.

(** With the arguments as [visit] gives them: [iterate] calls the callback
    on the members in declaration order, once each, up to and including the
    first call that does not ask to continue: either every member was
    visited and every call asked to continue, or the last call made is the
    first that did not, and no later member is visited. *)
Theorem iterate_visits_members_in_order_until_stop
    {S : Type} (callback : ObjectCallback S) (this : ObjectImplBase)
    (members : list Member) (s : S) :
  value_ this = VObject members ->
  exists (n : nat) (calls : list Call),
    iterate this (recording callback) (s, [])
    = (fst (iterate this callback s), (snd (iterate this callback s), calls))
    /\ map fst calls = map visit (firstn n members)
    /\ ((n = List.length members /\ Forall (fun c => continues (snd c) = true) calls)
        \/ exists init c,
             calls = (init ++ [c])%list
             /\ Forall (fun c => continues (snd c) = true) init
             /\ continues (snd c) = false).
Proof.
  intros Hv. unfold iterate. rewrite Hv. simpl.
  destruct (iterate_members_recording callback members s []) as (n & calls & H).
  exists n, calls. exact H.
Qed.

Lemma iterate_visits_members_in_order_until_stop_witness :
  value_ Examples.xy = VObject [("x", VInteger 1); ("y", VInteger 2)]
  /\ exists (n : nat) (calls : list Call),
       iterate Examples.xy (recording (Examples.note_until "x")) ([], [])
       = (fst (iterate Examples.xy (Examples.note_until "x") []),
          (snd (iterate Examples.xy (Examples.note_until "x") []), calls))
       /\ map fst calls = map visit (firstn n [("x", VInteger 1); ("y", VInteger 2)])
       /\ ((n = List.length [("x", VInteger 1); ("y", VInteger 2)]
            /\ Forall (fun c => continues (snd c) = true) calls)
           \/ exists init c,
                calls = (init ++ [c])%list
                /\ Forall (fun c => continues (snd c) = true) init
                /\ continues (snd c) = false).
Proof.
  split; [reflexivity|].
  exact (iterate_visits_members_in_order_until_stop
           (Examples.note_until "x") Examples.xy
           [("x", VInteger 1); ("y", VInteger 2)] [] eq_refl).
Defined.

(** Over {"x":1,"y":2} a callback that always continues is called on x, then
    on y. *)
Example iterate_xy_all :
  iterate Examples.xy (recording (Examples.note_until "none")) ([], [])
  = (Return tt,
     (["x"; "y"],
      [("x", mkObject "x" (VInteger 1), Return true);
       ("y", mkObject "y" (VInteger 2), Return true)])).
Proof. reflexivity. Qed.

(** A callback that stops at x is not called on y. *)
Example iterate_xy_stop_at_x :
  iterate Examples.xy (recording (Examples.note_until "x")) ([], [])
  = (Return tt, (["x"], [("x", mkObject "x" (VInteger 1), Return false)])).
Proof. reflexivity. Qed.

(** ** Loading *)

(** In terms of the parser's answer on the text read up to its first NUL
    byte: when the parser reports an error, [LoadFromString]
    throws an exception whose message carries the offset, a natural number,
    and the parser's message for the error, and returns no root; when the
    parser accepts the text, it returns the root view of the parsed document,
    named "root". *)
Theorem LoadFromString_outcomes :
  forall (ParseErrorCode : Type) (Parse : string -> ParseResult ParseErrorCode)
         (GetParseError_En : ParseErrorCode -> string)
         (Reader_events : string -> list Sax.Event) (json : string),
    let load := LoadFromString ParseErrorCode Parse GetParseError_En Reader_events in
    (forall offset code,
        Parse (c_str json) = HasParseError offset code ->
        snd (load json)
        = Throw (Exception ("Error(offset " ++ NilZero.string_of_uint (N.to_uint offset)
                            ++ "): " ++ GetParseError_En code ++ LF))
        /\ 0 <= Z.of_N offset
        /\ N.of_uint (N.to_uint offset) = offset
        /\ forall root, snd (load json) <> Return root)
    /\ (forall document,
        Parse (c_str json) = Parsed document ->
        exists root,
          load json = (IterativeParse (Reader_events (c_str json)) "", Return root)
          /\ root_view root = mkObject "root" document)
    /\ ((exists offset code, Parse (c_str json) = HasParseError offset code)
        \/ exists document, Parse (c_str json) = Parsed document).
Proof.
  intros ParseErrorCode Parse GetParseError_En Reader_events json load.
  unfold load, LoadFromString. split; [|split].
  - intros offset code H. rewrite H. simpl. split; [reflexivity|].
    split; [apply N2Z.is_nonneg|]. split; [apply DecimalN.Unsigned.of_to|].
    discriminate.
  - intros document H. rewrite H. exists (mkRoot document). split; reflexivity.
  - destruct (Parse (c_str json)) as [document|offset code].
    + right. now exists document.
    + left. now exists offset, code.
Qed.

(** An unbalanced brace. *)
Example LoadFromString_unbalanced_brace :
  snd (MiniJson.LoadFromString "{")
  = Throw (Exception ("Error(offset 1): Missing a name for object member." ++ LF)).
Proof. reflexivity. Qed.

(** {"a": {"b": 1}}, then [getObject("a")] and [getInteger("b")]. *)
Example LoadFromString_round_trip :
  (root <- snd (MiniJson.LoadFromString
                  ("{" ++ Examples.q ++ "a" ++ Examples.q ++ ": {"
                       ++ Examples.q ++ "b" ++ Examples.q ++ ": 1}}")) ;;
   a <- getObject (root_view root) "a" false ;;
   getInteger a "b")
  = Return 1.
Proof. reflexivity. Qed.

(** ** The writer *)

Lemma append_assoc (a b c : string) : (a ++ b) ++ c = a ++ (b ++ c).
Proof. induction a as [|x a IH]; simpl; [reflexivity|now rewrite IH]. Qed.

Lemma append_inv_head (a x y : string) : a ++ x = a ++ y -> x = y.
Proof.
  induction a as [|c a IH]; simpl; [auto|].
  intros H. injection H as H. auto.
Qed.

Lemma append_comparable (a b x y : string) :
  a ++ x = b ++ y -> is_prefix a b = true \/ is_prefix b a = true.
Proof.
  revert b. induction a as [|c a IH]; intros [|d b]; simpl; auto.
  intros H. injection H as -> H. rewrite Ascii.eqb_refl. simpl. now apply IH.
Qed.

Lemma nul_free_append (a b : string) :
  nul_free (a ++ b) = nul_free a && nul_free b.
Proof.
  induction a as [|c a IH]; simpl; [reflexivity|].
  rewrite IH. now rewrite andb_assoc.
Qed.

Lemma c_str_append (a x : string) :
  nul_free a = true -> c_str (a ++ x) = a ++ c_str x.
Proof.
  induction a as [|c a IH]; simpl; [reflexivity|].
  destruct (Ascii.eqb c NUL); simpl; [discriminate|].
  intros H. now rewrite IH.
Qed.

Lemma in_all_ascii (c : ascii) : In c all_ascii.
Proof.
  unfold all_ascii. apply in_map_iff. exists (nat_of_ascii c).
  split; [apply ascii_nat_embedding|].
  apply in_seq. pose proof (nat_ascii_bounded c). lia.
Qed.

Lemma escape_is_well_formed (c : ascii) : escape_well_formed c = true.
Proof.
  assert (H : forallb escape_well_formed all_ascii = true) by (vm_compute; reflexivity).
  rewrite forallb_forall in H. apply H, in_all_ascii.
Qed.

Lemma escape_is_prefix_free (c d : ascii) : escape_prefix_free c d = true.
Proof.
  assert (H : forallb (fun c => forallb (escape_prefix_free c) all_ascii) all_ascii = true)
    by (vm_compute; reflexivity).
  rewrite forallb_forall in H. specialize (H c (in_all_ascii c)).
  rewrite forallb_forall in H. apply H, in_all_ascii.
Qed.

Lemma escape_inj (c d : ascii) (x y : string) :
  Writer.escape c ++ x = Writer.escape d ++ y -> c = d /\ x = y.
Proof.
  intros H. pose proof (escape_is_prefix_free c d) as Hpf.
  unfold escape_prefix_free in Hpf.
  destruct (Ascii.eqb c d) eqn:E.
  - apply Ascii.eqb_eq in E. subst d. split; [reflexivity|].
    now apply append_inv_head in H.
  - simpl in Hpf. apply negb_true_iff in Hpf.
    apply append_comparable in H. destruct H as [H|H]; rewrite H in Hpf;
      [discriminate|]. now rewrite orb_true_r in Hpf.
Qed.

Lemma nul_free_escaped (s : string) : nul_free (Writer.escaped s) = true.
Proof.
  induction s as [|c s IH]; simpl; [reflexivity|].
  rewrite nul_free_append, IH.
  pose proof (escape_is_well_formed c) as H. unfold escape_well_formed in H.
  apply andb_prop in H. destruct H as [H _]. now rewrite H.
Qed.

(** The escaped text of a string ends where the closing quotation mark
    stands: two strings whose escaped texts, each followed by a quotation
    mark, begin one text are the same string. *)
Lemma escaped_inj (s t x y : string) :
  Writer.escaped s ++ String Writer.quote x = Writer.escaped t ++ String Writer.quote y ->
  s = t.
Proof.
  revert t. induction s as [|c s IH]; intros [|d t]; simpl.
  - reflexivity.
  - rewrite append_assoc. intros H. exfalso.
    pose proof (escape_is_well_formed d) as Hd. unfold escape_well_formed in Hd.
    apply andb_prop in Hd. destruct Hd as [_ Hd].
    destruct (Writer.escape d) as [|h e]; [discriminate|].
    simpl in H. injection H as H _. subst h.
    now rewrite Ascii.eqb_refl in Hd.
  - rewrite append_assoc. intros H. exfalso.
    pose proof (escape_is_well_formed c) as Hc. unfold escape_well_formed in Hc.
    apply andb_prop in Hc. destruct Hc as [_ Hc].
    destruct (Writer.escape c) as [|h e]; [discriminate|].
    simpl in H. injection H as H _. subst h.
    now rewrite Ascii.eqb_refl in Hc.
  - rewrite !append_assoc. intros H.
    apply escape_inj in H. destruct H as [-> H].
    f_equal. now apply IH.
Qed.

(** Induction on a document tree, with the property known of every element
    and of every member's value. *)
Lemma Value_nested_ind (P : Value -> Prop) :
  P VNull ->
  (forall b, P (VBool b)) ->
  (forall i, P (VInteger i)) ->
  (forall d, P (VDouble d)) ->
  (forall s, P (VString s)) ->
  (forall elements, Forall P elements -> P (VArray elements)) ->
  (forall members, Forall (fun m => P (snd m)) members -> P (VObject members)) ->
  forall v, P v.
Proof.
  intros HNull HBool HInteger HDouble HString HArray HObject.
  fix IH 1. intros [|b|i|d|s|elements|members].
  - exact HNull.
  - apply HBool.
  - apply HInteger.
  - apply HDouble.
  - apply HString.
  - apply HArray.
    exact ((fix all (l : list Value) : Forall P l :=
              match l with
              | [] => Forall_nil P
              | e :: rest => Forall_cons e (IH e) (all rest)
              end) elements).
  - apply HObject.
    exact ((fix all (l : list (string * Value)) : Forall (fun m => P (snd m)) l :=
              match l with
              | [] => Forall_nil _
              | m :: rest => Forall_cons m (IH (snd m)) (all rest)
              end) members).
Qed.

Lemma append_empty (a : string) : a ++ "" = a.
Proof. induction a as [|c a IH]; simpl; [reflexivity|now rewrite IH]. Qed.

Lemma Accept_array (dtoa : double -> string) (elements : list Value) (os : string) :
  Writer.Accept dtoa (VArray elements) os
  = Writer.AcceptElements dtoa elements true (os ++ "[").
Proof.
  cbn [Writer.Accept].
  match goal with
  | |- ?values elements true ?o = _ =>
      enough (H : forall first os',
                 values elements first os'
                 = Writer.AcceptElements dtoa elements first os') by apply H
  end.
  induction elements as [|e rest IH]; intros first os'.
  - reflexivity.
  - cbn [Writer.AcceptElements].
    destruct (Writer.Accept dtoa e (if first then os' else os' ++ ","))
      as [[|] os1]; [apply IH|reflexivity].
Qed.

Lemma Accept_object (dtoa : double -> string) (members : list Member) (os : string) :
  Writer.Accept dtoa (VObject members) os
  = Writer.AcceptMembers dtoa members true (os ++ "{").
Proof.
  cbn [Writer.Accept].
  match goal with
  | |- ?pairs members true ?o = _ =>
      enough (H : forall first os',
                 pairs members first os'
                 = Writer.AcceptMembers dtoa members first os') by apply H
  end.
  induction members as [|[name value] rest IH]; intros first os'.
  - reflexivity.
  - cbn [Writer.AcceptMembers].
    destruct (Writer.Accept dtoa value
                (((if first then os' else os' ++ ",") ++ Writer.WriteString name) ++ ":"))
      as [[|] os1]; [apply IH|reflexivity].
Qed.

(** What stands between two values is appended too. *)
Lemma separator_appended (first : bool) (os : string) :
  exists sep, (if first then os else os ++ ",") = os ++ sep.
Proof.
  destruct first; [exists ""; now rewrite append_empty|now exists ","].
Qed.

Lemma AcceptElements_appends (dtoa : double -> string) (elements : list Value) :
  Forall (fun e => forall os, exists out, snd (Writer.Accept dtoa e os) = os ++ out)
         elements ->
  forall first os, exists out,
    snd (Writer.AcceptElements dtoa elements first os) = os ++ out.
Proof.
  induction 1 as [|e rest He _ IH]; intros first os; cbn [Writer.AcceptElements].
  - now exists "]".
  - destruct (separator_appended first os) as [sep ->].
    destruct (He (os ++ sep)) as [out1 Hout1].
    destruct (Writer.Accept dtoa e (os ++ sep)) as [ok os1].
    cbn [snd] in Hout1. subst os1. rewrite append_assoc.
    destruct ok.
    + destruct (IH false (os ++ sep ++ out1)) as [out2 Hout2].
      rewrite Hout2, !append_assoc. now exists (sep ++ out1 ++ out2).
    + now exists (sep ++ out1).
Qed.

Lemma AcceptMembers_appends_from (dtoa : double -> string) (members : list Member) :
  Forall (fun m => forall os, exists out,
                     snd (Writer.Accept dtoa (snd m) os) = os ++ out)
         members ->
  forall first os, exists out,
    snd (Writer.AcceptMembers dtoa members first os) = os ++ out.
Proof.
  induction 1 as [|[name value] rest He _ IH]; intros first os;
    cbn [Writer.AcceptMembers].
  - now exists "}".
  - cbn [snd] in He.
    destruct (separator_appended first os) as [sep ->].
    destruct (He (((os ++ sep) ++ Writer.WriteString name) ++ ":")) as [out1 Hout1].
    destruct (Writer.Accept dtoa value (((os ++ sep) ++ Writer.WriteString name) ++ ":"))
      as [ok os1].
    cbn [snd] in Hout1. subst os1. rewrite !append_assoc.
    destruct ok.
    + destruct (IH false (os ++ sep ++ Writer.WriteString name ++ ":" ++ out1))
        as [out2 Hout2].
      rewrite Hout2, !append_assoc.
      now exists (sep ++ Writer.WriteString name ++ ":" ++ out1 ++ out2).
    + now exists (sep ++ Writer.WriteString name ++ ":" ++ out1).
Qed.

(** The writer only appends to its stream. *)
Lemma Accept_appends (dtoa : double -> string) (v : Value) :
  forall os, exists out, snd (Writer.Accept dtoa v os) = os ++ out.
Proof.
  induction v as [|b|i|d|s|elements IH|members IH] using Value_nested_ind; intros os.
  - now exists "null".
  - now exists (if b then "true" else "false").
  - now exists (Writer.WriteInteger i).
  - cbn [Writer.Accept]. destruct (Writer.IsNanOrInf d); cbn [snd].
    + exists "". now rewrite append_empty.
    + now exists (dtoa d).
  - now exists (Writer.WriteString s).
  - rewrite Accept_array.
    destruct (AcceptElements_appends dtoa elements IH true (os ++ "[")) as [out Hout].
    rewrite Hout, append_assoc. now exists ("[" ++ out).
  - rewrite Accept_object.
    destruct (AcceptMembers_appends_from dtoa members IH true (os ++ "{")) as [out Hout].
    rewrite Hout, append_assoc. now exists ("{" ++ out).
Qed.

Lemma AcceptMembers_appends (dtoa : double -> string) (members : list Member) :
  forall first os, exists out,
    snd (Writer.AcceptMembers dtoa members first os) = os ++ out.
Proof.
  apply AcceptMembers_appends_from. apply Forall_forall.
  intros m _. apply Accept_appends.
Qed.

Lemma AcceptMembers_first (dtoa : double -> string) (k : string) (v : Value)
    (rest : list Member) (os : string) :
  exists out,
    snd (Writer.AcceptMembers dtoa ((k, v) :: rest) true os)
    = os ++ Writer.WriteString k ++ ":" ++ out.
Proof.
  cbn [Writer.AcceptMembers].
  destruct (Accept_appends dtoa v ((os ++ Writer.WriteString k) ++ ":")) as [out1 Hout1].
  destruct (Writer.Accept dtoa v ((os ++ Writer.WriteString k) ++ ":")) as [ok os1].
  cbn [snd] in Hout1. subst os1. destruct ok.
  - destruct (AcceptMembers_appends dtoa rest false
                (((os ++ Writer.WriteString k) ++ ":") ++ out1)) as [out2 Hout2].
    rewrite Hout2, !append_assoc. now exists (out1 ++ out2).
  - cbn [snd]. rewrite !append_assoc. now exists out1.
Qed.

(** The serialization of an object with a member begins with the brace and
    the escaped name of the first member between quotation marks. *)
Lemma serialization_begins_with_first_name
    (dtoa : double -> string) (name k : string) (v : Value) (rest : list Member) :
  exists tail,
    serialization dtoa (mkObject name (VObject ((k, v) :: rest)))
    = String "{" (String Writer.quote (Writer.escaped k ++ String Writer.quote tail)).
Proof.
  unfold serialization, Writer.GetString. cbn [value_].
  rewrite Accept_object.
  destruct (AcceptMembers_first dtoa k v rest ("" ++ "{")) as [out ->].
  exists (c_str (":" ++ out)).
  unfold Writer.WriteString.
  change (("" ++ "{")
            ++ String Writer.quote (Writer.escaped k ++ String Writer.quote "")
            ++ ":" ++ out)
    with (String "{" (String Writer.quote
            ((Writer.escaped k ++ String Writer.quote "") ++ String ":" out))).
  rewrite append_assoc.
  change (String Writer.quote "" ++ String ":" out)
    with (String Writer.quote (String ":" out)).
  change (c_str (String "{" (String Writer.quote
            (Writer.escaped k ++ String Writer.quote (String ":" out)))))
    with (String "{" (String Writer.quote
            (c_str (Writer.escaped k ++ String Writer.quote (String ":" out))))).
  rewrite c_str_append by apply nul_free_escaped.
  reflexivity.
Qed.

(** Two objects whose serializations agree have first members of one name. *)
Lemma serialization_tells_first_name
    (dtoa : double -> string) (name1 name2 k1 k2 : string) (v1 v2 : Value)
    (rest1 rest2 : list Member) :
  serialization dtoa (mkObject name1 (VObject ((k1, v1) :: rest1)))
  = serialization dtoa (mkObject name2 (VObject ((k2, v2) :: rest2))) ->
  k1 = k2.
Proof.
  destruct (serialization_begins_with_first_name dtoa name1 k1 v1 rest1) as [t1 ->].
  destruct (serialization_begins_with_first_name dtoa name2 k2 v2 rest2) as [t2 ->].
  intros H. injection H as H. now apply escaped_inj in H.
Qed.

(** ** hash() *)

(** C1, as the code has it: the hash is the string hash of the
    serialization, so two views whose serializations are byte for byte the
    same have the same hash, whatever the string hash is; views of one node,
    as after parsing the same text again, are such views.  The converse is
    not promised. *)
Theorem hash_of_equal_serializations
    (dtoa : double -> string) (std_hash : string -> Z) (a b : ObjectImplBase) :
  serialization dtoa a = serialization dtoa b ->
  hash dtoa std_hash a = hash dtoa std_hash b.
Proof.
  intros H. unfold hash. now rewrite H.
Qed.

Lemma hash_of_equal_serializations_witness :
  serialization Examples.no_dtoa Examples.ab
  = serialization Examples.no_dtoa (mkObject "again" (value_ Examples.ab))
  /\ hash Examples.no_dtoa Libstdcxx.Hash_bytes Examples.ab
     = hash Examples.no_dtoa Libstdcxx.Hash_bytes (mkObject "again" (value_ Examples.ab)).
Proof.
  split; [reflexivity|].
  exact (hash_of_equal_serializations Examples.no_dtoa Libstdcxx.Hash_bytes
           Examples.ab (mkObject "again" (value_ Examples.ab)) eq_refl).
Defined.

(** The view's name takes no part in the hash. *)
Lemma hash_of_same_node (dtoa : double -> string) (std_hash : string -> Z)
    (a b : ObjectImplBase) :
  value_ a = value_ b -> hash dtoa std_hash a = hash dtoa std_hash b.
Proof.
  intros H. unfold hash, serialization. now rewrite H.
Qed.

(** Loading one text twice gives two roots with one hash. *)
Lemma hash_after_loading_again
    (ParseErrorCode : Type) (Parse : string -> ParseResult ParseErrorCode)
    (GetParseError_En : ParseErrorCode -> string)
    (Reader_events : string -> list Sax.Event)
    (dtoa : double -> string) (std_hash : string -> Z)
    (json : string) (first second : ObjectImplRoot) :
  snd (LoadFromString ParseErrorCode Parse GetParseError_En Reader_events json)
  = Return first ->
  snd (LoadFromString ParseErrorCode Parse GetParseError_En Reader_events json)
  = Return second ->
  hash dtoa std_hash (root_view first) = hash dtoa std_hash (root_view second).
Proof.
  intros H1 H2. rewrite H1 in H2. injection H2 as ->. reflexivity.
Qed.

(** {"a":1,"b":2} and {"b":2,"a":1} have different serializations and, under
    libstdc++, different hashes. *)
Example hash_is_order_sensitive :
  serialization Examples.no_dtoa Examples.ab
  = "{" ++ Examples.q ++ "a" ++ Examples.q ++ ":1," ++ Examples.q ++ "b" ++ Examples.q ++ ":2}"
  /\ serialization Examples.no_dtoa Examples.ba
     = "{" ++ Examples.q ++ "b" ++ Examples.q ++ ":2," ++ Examples.q ++ "a" ++ Examples.q ++ ":1}"
  /\ hash Examples.no_dtoa Libstdcxx.Hash_bytes Examples.ab = 14837354237204985954
  /\ hash Examples.no_dtoa Libstdcxx.Hash_bytes Examples.ba
     <> hash Examples.no_dtoa Libstdcxx.Hash_bytes Examples.ab.
Proof.
  split; [reflexivity|]. split; [reflexivity|]. split; [vm_compute; reflexivity|].
  vm_compute. discriminate.
Qed.

(** *** The serialization of an integer *)

Lemma nul_free_digits (d : Decimal.uint) : nul_free (NilEmpty.string_of_uint d) = true.
Proof. induction d; simpl; auto. Qed.

Lemma nul_free_WriteInteger (i : Z) : nul_free (Writer.WriteInteger i) = true.
Proof.
  unfold Writer.WriteInteger, NilZero.string_of_int, NilZero.string_of_uint.
  destruct (Z.to_int i) as [d|d]; destruct d; simpl; auto using nul_free_digits.
Qed.

Lemma WriteInteger_read_back (i : Z) :
  NilZero.int_of_string (Writer.WriteInteger i) = Some (Z.to_int i).
Proof.
  unfold Writer.WriteInteger. apply NilZero.isi.
  - destruct i; simpl; try discriminate.
    intros H. injection H as H. now apply DecimalPos.Unsigned.to_uint_nonnil in H.
  - destruct i; simpl; try discriminate.
    intros H. injection H as H. now apply DecimalPos.Unsigned.to_uint_nonnil in H.
Qed.

Lemma WriteInteger_inj (i j : Z) :
  Writer.WriteInteger i = Writer.WriteInteger j -> i = j.
Proof.
  intros H. apply DecimalZ.to_int_inj.
  pose proof (WriteInteger_read_back i) as Hi.
  rewrite H, WriteInteger_read_back in Hi. congruence.
Qed.

Lemma WriteInteger_not_null (i : Z) : Writer.WriteInteger i <> "null".
Proof.
  intros H. pose proof (WriteInteger_read_back i) as Hi.
  rewrite H in Hi. discriminate.
Qed.

Lemma serialization_integer (dtoa : double -> string) (name : string) (i : Z) :
  serialization dtoa (mkObject name (VInteger i)) = Writer.WriteInteger i.
Proof.
  unfold serialization, Writer.GetString. simpl.
  apply c_str_nul_free, nul_free_WriteInteger.
Qed.

Lemma small_document_serialization_inj (dtoa : double -> string) (i j : nat) :
  Z.of_nat i <= 2 ^ 64 -> Z.of_nat j <= 2 ^ 64 ->
  serialization dtoa (Examples.small_document i)
  = serialization dtoa (Examples.small_document j) ->
  i = j.
Proof.
  intros Hi Hj. unfold Examples.small_document.
  destruct (Z.of_nat i <? 2 ^ 64) eqn:Ei; destruct (Z.of_nat j <? 2 ^ 64) eqn:Ej;
    rewrite ?serialization_integer.
  - intros H. apply WriteInteger_inj in H. now apply Nat2Z.inj.
  - intros H. now apply WriteInteger_not_null in H.
  - intros H. symmetry in H. now apply WriteInteger_not_null in H.
  - intros _. apply Z.ltb_ge in Ei, Ej. apply Nat2Z.inj. lia.
Qed.

(** *** Two of more values than the digest has fall together *)

Lemma repeated_value (h : nat -> nat) (l : list nat) :
  NoDup l ->
  NoDup (map h l) \/ exists a b, In a l /\ In b l /\ a <> b /\ h a = h b.
Proof.
  induction l as [|a l IH]; intros Hnd.
  - left. constructor.
  - inversion Hnd as [|? ? Hnotin Hnd']; subst.
    destruct (IH Hnd') as [Hmap|(x & y & Hx & Hy & Hxy & E)].
    + destruct (in_dec Nat.eq_dec (h a) (map h l)) as [Hin|Hnin].
      * right. apply in_map_iff in Hin. destruct Hin as (b & Hb & Hin).
        exists a, b. split; [now left|]. split; [now right|].
        split; [|now symmetry]. intros ->. contradiction.
      * left. simpl. now constructor.
    + right. exists x, y. split; [now right|]. split; [now right|]. now split.
Qed.

Lemma pigeonhole (bound : nat) (h : nat -> nat) :
  (forall i, (i <= bound)%nat -> (h i < bound)%nat) ->
  exists i j, (i <= bound)%nat /\ (j <= bound)%nat /\ i <> j /\ h i = h j.
Proof.
  intros Hh.
  destruct (repeated_value h (seq 0 (Datatypes.S bound)) (seq_NoDup _ _))
    as [Hnd|(a & b & Ha & Hb & Hab & E)].
  - exfalso.
    assert (Hincl : incl (map h (seq 0 (Datatypes.S bound))) (seq 0 bound)).
    { intros x Hx. apply in_map_iff in Hx. destruct Hx as (i & <- & Hi).
      apply in_seq in Hi. apply in_seq. specialize (Hh i). lia. }
    apply (NoDup_incl_length Hnd) in Hincl.
    rewrite length_map, !length_seq in Hincl. lia.
  - apply in_seq in Ha, Hb. exists a, b. repeat split; try assumption; lia.
Qed.

(** Whatever the string hash, as long as its results fit 64 bits, two of the
    documents 0, ..., 2^64 - 1, null have one hash and different
    serializations. *)
Lemma digest_collides (dtoa : double -> string) (std_hash : string -> Z) :
  (forall s, 0 <= std_hash s < 2 ^ 64) ->
  exists i j : nat,
    hash dtoa std_hash (Examples.small_document i)
    = hash dtoa std_hash (Examples.small_document j)
    /\ serialization dtoa (Examples.small_document i)
       <> serialization dtoa (Examples.small_document j).
Proof.
  intros Hrange.
  assert (Hbound : exists bound : nat, Z.of_nat bound = 2 ^ 64).
  { exists (Z.to_nat (2 ^ 64)). apply Z2Nat.id. apply Z.pow_nonneg. lia. }
  destruct Hbound as [bound Hbound].
  destruct (pigeonhole bound
              (fun i => Z.to_nat (hash dtoa std_hash (Examples.small_document i))))
    as (i & j & Hi & Hj & Hij & E).
  - intros i _. unfold hash.
    specialize (Hrange (serialization dtoa (Examples.small_document i))).
    apply Nat2Z.inj_lt. rewrite Hbound, Z2Nat.id; lia.
  - exists i, j. split.
    + unfold hash in *. apply Z2Nat.inj in E; [exact E| |]; apply Hrange.
    + intros H. apply Hij.
      apply (small_document_serialization_inj dtoa); [| |exact H].
      * rewrite <- Hbound. now apply Nat2Z.inj_le.
      * rewrite <- Hbound. now apply Nat2Z.inj_le.
Qed.

(** C1, as stated, fails: equal hashes do not give equal serializations, and
    reordering the members need not change the hash.  Under libstdc++ the
    object [Examples.one_two], of two members with different names, and
    [Examples.two_one], the same members in the other order, have the hash
    10084746912871226961 and different serializations; and under every string
    hash of 64 bits some two documents have one hash and different
    serializations. *)
Lemma hash_collision :
  (forall dtoa : double -> string,
      value_ Examples.two_one
      = VObject (rev [(Examples.name_1, VString Examples.text_1);
                      (Examples.name_2, VString Examples.text_2)])
      /\ value_ Examples.one_two
         = VObject [(Examples.name_1, VString Examples.text_1);
                    (Examples.name_2, VString Examples.text_2)]
      /\ Examples.name_1 <> Examples.name_2
      /\ hash dtoa Libstdcxx.Hash_bytes Examples.one_two = 10084746912871226961
      /\ hash dtoa Libstdcxx.Hash_bytes Examples.two_one = 10084746912871226961
      /\ serialization dtoa Examples.one_two <> serialization dtoa Examples.two_one)
  /\ (forall (dtoa : double -> string) (std_hash : string -> Z),
         (forall s, 0 <= std_hash s < 2 ^ 64) ->
         exists a b : ObjectImplBase,
           hash dtoa std_hash a = hash dtoa std_hash b
           /\ serialization dtoa a <> serialization dtoa b).
Proof.
  split.
  - intros dtoa. split; [reflexivity|]. split; [reflexivity|].
    split; [vm_compute; discriminate|].
    split; [vm_compute; reflexivity|]. split; [vm_compute; reflexivity|].
    vm_compute. discriminate.
  - intros dtoa std_hash Hrange.
    destruct (digest_collides dtoa std_hash Hrange) as (i & j & H).
    now exists (Examples.small_document i), (Examples.small_document j).
Qed.

(** * Further properties of the accessors *)

(** ** Arrays of views *)

(** X1: on an array, [asObjectArray] returns as many views as the array has
    elements, the view at each index bound to the element at that index and
    named after this view with the suffix for array items. *)
Theorem asObjectArray_views (this : ObjectImplBase) (elements : list Value) :
  value_ this = VArray elements ->
  exists items,
    asObjectArray this = Return items
    /\ List.length items = List.length elements
    /\ forall i,
         nth_error items i
         = option_map (mkObject (name_ this ++ " (array item)")) (nth_error elements i).
Proof.
  intros Hv. exists (array_items (name_ this) elements).
  unfold asObjectArray. rewrite Hv. cbn [rapidjson.IsArray negb rapidjson.GetArray bind].
  split; [reflexivity|]. unfold array_items.
  split; [apply length_map|]. intros i. apply nth_error_map.
Qed.

Lemma asObjectArray_views_witness :
  value_ Samples.three
  = VArray [VObject [("id", VInteger 1)]; VObject [("id", VInteger 2)];
            VObject [("id", VInteger 3)]]
  /\ exists items,
       asObjectArray Samples.three = Return items
       /\ List.length items = 3%nat
       /\ forall i,
            nth_error items i
            = option_map (mkObject "root (array item)")
                (nth_error [VObject [("id", VInteger 1)]; VObject [("id", VInteger 2)];
                            VObject [("id", VInteger 3)]] i).
Proof.
  split; [reflexivity|].
  exact (asObjectArray_views Samples.three _ eq_refl).
Defined.

(** The three views of [{"id": 1}, {"id": 2}, {"id": 3}] are read one by one. *)
Example asObjectArray_then_getInteger :
  (items <- asObjectArray Samples.three ;; mapM (fun o => getInteger o "id") items)
  = Return [1; 2; 3].
Proof. reflexivity. Qed.

(** ** Named accessors through getObject *)

Lemma same_outcome_refl {A : Type} (r : result A) : same_outcome r r.
Proof. destruct r; simpl; auto. Qed.

(** X2: reading a string or an array of views under a key is reading the
    member with [getObject] and then the view with [asString] or
    [asObjectArray]: both ways return the same value or both fail, the named
    accessor with its own message. *)
Theorem named_accessors_through_getObject :
  forall (this : ObjectImplBase) (k : string),
    same_outcome (getString this k) (o <- getObject this k false ;; asString o)
    /\ same_outcome (getObjectArray this k)
                    (o <- getObject this k false ;; asObjectArray o).
Proof.
  intros this k. unfold getString, getObjectArray, getObject.
  destruct (rapidjson.FindMember (value_ this) (c_str k)) as [[[n v]|]|e|];
    cbn [bind negb]; try (split; exact I).
  split.
  - unfold asString. cbn [value_ name_]. destruct (rapidjson.IsString v); cbn [negb].
    + apply same_outcome_refl.
    + exact I.
  - unfold asObjectArray. cbn [value_ name_]. destruct (rapidjson.IsArray v); cbn [negb].
    + apply same_outcome_refl.
    + exact I.
Qed.

Lemma mapM_same_outcome {A B C : Type} (f : A -> result C) (g : B -> result C)
    (h : A -> B) (l : list A) :
  (forall a, same_outcome (f a) (g (h a))) ->
  same_outcome (mapM f l) (mapM g (map h l)).
Proof.
  intros H. induction l as [|a l IH]; cbn [mapM map]; [reflexivity|].
  specialize (H a). destruct (f a) as [c| |], (g (h a)) as [c'| |];
    cbn [bind same_outcome] in *; try tauto.
  subst c'. destruct (mapM f l) as [cs| |], (mapM g (map h l)) as [cs'| |];
    cbn [bind same_outcome] in *; try tauto.
  now subst cs'.
Qed.

(** X3: [getStringArray] under a key is [getObjectArray] under the key
    followed by [asString] on each view, in order: both ways return the same
    strings or both fail. *)
Theorem getStringArray_through_getObjectArray :
  forall (this : ObjectImplBase) (k : string),
    same_outcome (getStringArray this k)
                 (items <- getObjectArray this k ;; mapM asString items).
Proof.
  intros this k. unfold getStringArray, getObjectArray.
  destruct (rapidjson.FindMember (value_ this) (c_str k)) as [[[n v]|]|e|];
    cbn [bind negb]; try exact I.
  destruct v; cbn [rapidjson.IsArray negb rapidjson.GetArray bind]; try exact I.
  unfold array_items. apply mapM_same_outcome.
  intros e. unfold string_array_item, asString. cbn [value_ name_].
  destruct (rapidjson.IsString e); cbn [negb]; [apply same_outcome_refl|exact I].
Qed.

Example getStringArray_two_ways :
  getStringArray Samples.mixed "names" = Return ["a"; "b"]
  /\ (items <- getObjectArray Samples.mixed "names" ;; mapM asString items)
     = Return ["a"; "b"]
  /\ getString Samples.mixed "s" = Return "str"
  /\ (o <- getObject Samples.mixed "s" false ;; asString o) = Return "str".
Proof. repeat split. Qed.

(** ** hasObject and getObject *)

Lemma FindMember_outcome (v : Value) (name : string) :
  (rapidjson.IsObject v = true /\ exists found, rapidjson.FindMember v name = Return found)
  \/ (rapidjson.IsObject v = false /\ rapidjson.FindMember v name = AssertionFailure).
Proof.
  destruct v; simpl; try (right; split; reflexivity).
  left. split; [reflexivity|]. eauto.
Qed.

(** X4: [hasObject] never throws and returns exactly on a view of an object.
    It says true exactly when [getObject] finds the member, and false exactly
    when [getObject] without [allow_empty] throws; that exception is, text
    and all, the one [getInteger] throws for the key.  With [allow_empty],
    [getObject] returns on every view of an object. *)
Theorem hasObject_and_getObject :
  forall (this : ObjectImplBase) (k : string),
    (forall e, hasObject this k <> Throw e)
    /\ (hasObject this k = AssertionFailure <-> rapidjson.IsObject (value_ this) = false)
    /\ (hasObject this k = Return true
        <-> exists object, getObject this k false = Return object)
    /\ (hasObject this k = Return false
        <-> exists e, getObject this k false = Throw e)
    /\ (forall e, getObject this k false = Throw e -> getInteger this k = Throw e)
    /\ (rapidjson.IsObject (value_ this) = true ->
        exists object, getObject this k true = Return object).
Proof.
  intros this k. unfold hasObject, rapidjson.HasMember, getObject, getInteger.
  destruct (FindMember_outcome (value_ this) (c_str k)) as [[Hobj [found H]]|[Hobj H]];
    rewrite H, Hobj; cbn [bind].
  - destruct found as [[n v]|]; cbn [negb].
    + split; [discriminate|]. split; [split; discriminate|].
      split; [split; eauto|].
      split; [split; [discriminate|intros [e He]; discriminate]|].
      split; [discriminate|eauto].
    + split; [discriminate|]. split; [split; discriminate|].
      split; [split; [discriminate|intros [o Ho]; discriminate]|].
      split; [split; eauto|].
      split; [|eauto]. intros e He. injection He as <-. reflexivity.
  - split; [discriminate|]. split; [split; reflexivity|].
    split; [split; [discriminate|intros [o Ho]; discriminate]|].
    split; [split; [discriminate|intros [e He]; discriminate]|].
    split; discriminate.
Qed.

(** ** Views of something else than an object *)

(** X5: on a view of a node that is not an object, no member accessor
    returns and none throws: each one stops at the assertion of the lookup,
    and [iterate] stops at the assertion of [GetObject] before any call of
    the callback.  [getObject] hands out such views, since it does not look
    at the kind of the member. *)
Theorem member_accessors_need_an_object (this : ObjectImplBase) (k : string) :
  rapidjson.IsObject (value_ this) = false ->
  hasObject this k = AssertionFailure
  /\ getBoolean this k = AssertionFailure
  /\ getInteger this k = AssertionFailure
  /\ getDouble this k = AssertionFailure
  /\ getString this k = AssertionFailure
  /\ (forall d, getBoolean_default this k d = AssertionFailure)
  /\ (forall d, getInteger_default this k d = AssertionFailure)
  /\ (forall d, getDouble_default this k d = AssertionFailure)
  /\ (forall d, getString_default this k d = AssertionFailure)
  /\ (forall allow_empty, getObject this k allow_empty = AssertionFailure)
  /\ getObjectArray this k = AssertionFailure
  /\ getStringArray this k = AssertionFailure
  /\ (forall (S : Type) (callback : ObjectCallback S) (s : S),
         iterate this callback s = (AssertionFailure, s)
         /\ iterate this (recording callback) (s, []) = (AssertionFailure, (s, []))).
Proof.
  intros Hobj.
  assert (H : rapidjson.FindMember (value_ this) (c_str k) = AssertionFailure).
  { destruct (FindMember_outcome (value_ this) (c_str k)) as [[Hobj' _]|[_ H]];
      [congruence|exact H]. }
  unfold hasObject, getBoolean_default, getInteger_default, getDouble_default,
    getString_default, getBoolean, getInteger, getDouble, getString, getObject,
    getObjectArray, getStringArray, rapidjson.HasMember.
  rewrite H. cbn [bind].
  repeat (split; [reflexivity || (intros; reflexivity)|]).
  intros S callback s. unfold iterate.
  destruct (value_ this); try discriminate Hobj; split; reflexivity.
Qed.

Lemma member_accessors_need_an_object_witness :
  getObject Samples.mixed "n" false = Return (mkObject "n" (VInteger 7))
  /\ rapidjson.IsObject (value_ (mkObject "n" (VInteger 7))) = false
  /\ getInteger (mkObject "n" (VInteger 7)) "id" = AssertionFailure
  /\ getObject (mkObject "n" (VInteger 7)) "id" true = AssertionFailure.
Proof.
  pose proof (member_accessors_need_an_object (mkObject "n" (VInteger 7)) "id" eq_refl)
    as (_ & _ & Hi & _ & _ & _ & _ & _ & _ & Ho & _).
  split; [reflexivity|]. split; [reflexivity|]. split; [exact Hi|exact (Ho true)].
Defined.

(** ** iterate with a callback that never stops *)

Lemma iterate_members_fold {S : Type} (callback : ObjectCallback S)
    (members : list Member) :
  (forall key object s, fst (callback key object s) = Return true) ->
  forall (s : S) (calls0 : list Call),
    iterate_members callback members s = (Return tt, fold_left (step callback) members s)
    /\ iterate_members (recording callback) members (s, calls0)
       = (Return tt,
          (fold_left (step callback) members s,
           (calls0 ++ map (fun member => (visit member, Return true)) members)%list)).
Proof.
  intros Halways. induction members as [|member rest IH]; intros s calls0.
  - cbn [iterate_members fold_left map]. now rewrite app_nil_r.
  - cbn [iterate_members fold_left map]. unfold recording at 1. cbn [fst snd].
    change (step callback s member)
      with (snd (callback (c_str (fst member))
                   (mkObject (c_str (fst member)) (snd member)) s)).
    pose proof (Halways (c_str (fst member))
                  (mkObject (c_str (fst member)) (snd member)) s) as Hc.
    destruct (callback (c_str (fst member))
                (mkObject (c_str (fst member)) (snd member)) s) as [r s1].
    cbn [fst snd] in *. subst r. cbn [negb].
    destruct (IH s1 (calls0 ++ [(c_str (fst member),
                                  mkObject (c_str (fst member)) (snd member),
                                  Return true)])%list) as [H1 H2].
    split; [exact H1|]. rewrite H2. now rewrite <- app_assoc.
Qed.

(** X6: with a callback that always asks to continue, [iterate] over an
    object is a left fold of the callback over the members in declaration
    order: every member is visited once, a member whose name repeats an
    earlier one too, and the state at the end is the state threaded through
    all the calls. *)
Theorem iterate_is_a_fold {S : Type} (callback : ObjectCallback S)
    (this : ObjectImplBase) (members : list Member) (s : S) :
  value_ this = VObject members ->
  (forall key object s, fst (callback key object s) = Return true) ->
  iterate this callback s = (Return tt, fold_left (step callback) members s)
  /\ iterate this (recording callback) (s, [])
     = (Return tt,
        (fold_left (step callback) members s,
         map (fun member => (visit member, Return true)) members)).
Proof.
  intros Hv Halways. unfold iterate. rewrite Hv. cbn [rapidjson.GetObject].
  exact (iterate_members_fold callback members Halways s []).
Qed.

Lemma iterate_is_a_fold_witness :
  value_ Examples.twice = VObject [("a", VInteger 1); ("a", VInteger 2)]
  /\ (forall key object s, fst (Samples.note_all key object s) = Return true)
  /\ iterate Examples.twice Samples.note_all [] = (Return tt, ["a"; "a"])
  /\ getInteger Examples.twice "a" = Return 1.
Proof.
  assert (Halways : forall key object s, fst (Samples.note_all key object s) = Return true)
    by reflexivity.
  pose proof (iterate_is_a_fold Samples.note_all Examples.twice
                [("a", VInteger 1); ("a", VInteger 2)] [] eq_refl Halways) as [H _].
  split; [reflexivity|]. split; [exact Halways|]. split; [exact H|reflexivity].
Defined.

(** ** No NUL byte comes back *)

Lemma nul_free_c_str (s : string) : nul_free (c_str s) = true.
Proof.
  induction s as [|c s IH]; simpl; [reflexivity|].
  destruct (Ascii.eqb c NUL) eqn:E; simpl; [reflexivity|].
  now rewrite E, IH.
Qed.

Lemma string_array_nul_free (name : string) (elements : list Value) (strings : list string) :
  mapM (string_array_item name) elements = Return strings ->
  forallb nul_free strings = true.
Proof.
  revert strings. induction elements as [|e elements IH]; intros strings; cbn [mapM].
  - intros [= <-]. reflexivity.
  - unfold string_array_item at 1.
    destruct e; cbn [rapidjson.IsString negb rapidjson.GetString bind];
      try discriminate.
    destruct (mapM (string_array_item name) elements) as [rest| |];
      cbn [bind]; try discriminate.
    intros [= <-]. cbn [forallb]. now rewrite nul_free_c_str, (IH rest eq_refl).
Qed.

Lemma iterate_passes_cut_names {S : Type} (callback : ObjectCallback S)
    (this : ObjectImplBase) (s : S) :
  Forall (fun c : Call => nul_free (fst (fst c)) = true
                          /\ nul_free (name_ (snd (fst c))) = true)
         (snd (snd (iterate this (recording callback) (s, [])))).
Proof.
  destruct (value_ this) as [| | | | | |members] eqn:Hv;
    try (unfold iterate; rewrite Hv; constructor).
  destruct (iterate_visits_members_in_order_until_stop callback this members s Hv)
    as (n & calls & Hrun & Hmap & _).
  rewrite Hrun. cbn [snd]. apply Forall_forall. intros c Hc.
  assert (Hin : In (fst c) (map fst calls)) by now apply in_map.
  rewrite Hmap in Hin. apply in_map_iff in Hin. destruct Hin as (member & <- & _).
  unfold visit. cbn [fst snd name_]. split; apply nul_free_c_str.
Qed.

(** X7: a string that [getString], [asString] or [getStringArray] returns
    holds no NUL byte, and neither does a key [iterate] passes to the
    callback nor the name of the view passed with it, in any of its calls. *)
Theorem returned_strings_hold_no_NUL :
  forall (this : ObjectImplBase) (k : string),
    (forall s, getString this k = Return s -> nul_free s = true)
    /\ (forall s, asString this = Return s -> nul_free s = true)
    /\ (forall strings, getStringArray this k = Return strings ->
                        forallb nul_free strings = true)
    /\ (forall (S : Type) (callback : ObjectCallback S) (s : S),
          Forall (fun c : Call => nul_free (fst (fst c)) = true
                                  /\ nul_free (name_ (snd (fst c))) = true)
                 (snd (snd (iterate this (recording callback) (s, []))))).
Proof.
  intros this k. split; [|split; [|split]].
  - intros s. unfold getString.
    destruct (rapidjson.FindMember (value_ this) (c_str k)) as [[[n v]|]| |];
      cbn [bind]; try discriminate.
    destruct v; cbn [rapidjson.IsString negb rapidjson.GetString]; try discriminate.
    intros [= <-]. apply nul_free_c_str.
  - intros s. unfold asString.
    destruct (value_ this); cbn [rapidjson.IsString negb rapidjson.GetString];
      try discriminate.
    intros [= <-]. apply nul_free_c_str.
  - intros strings. unfold getStringArray.
    destruct (rapidjson.FindMember (value_ this) (c_str k)) as [[[n v]|]| |];
      cbn [bind]; try discriminate.
    destruct v; cbn [rapidjson.IsArray negb rapidjson.GetArray bind]; try discriminate.
    apply string_array_nul_free.
  - intros S callback s. apply iterate_passes_cut_names.
Qed.

(** ** How iterate ends *)

Lemma after_calls_cons (c : Call) (calls : list Call) :
  after_call (snd c) = Return tt ->
  after_calls (c :: calls) = after_calls calls.
Proof. intros H. destruct calls; cbn [after_calls]; [exact H|reflexivity]. Qed.

Lemma iterate_members_ends {S : Type} (callback : ObjectCallback S)
    (members : list Member) :
  forall (s : S) (calls0 : list Call),
  exists calls : list Call,
    snd (snd (iterate_members (recording callback) members (s, calls0)))
    = (calls0 ++ calls)%list
    /\ fst (iterate_members callback members s) = after_calls calls.
Proof.
  induction members as [|member rest IH]; intros s calls0.
  - exists []. cbn [iterate_members snd fst after_calls]. now rewrite app_nil_r.
  - cbn [iterate_members]. unfold recording at 1. cbn [fst snd].
    destruct (callback (c_str (fst member))
                (mkObject (c_str (fst member)) (snd member)) s) as [r s1].
    destruct r as [[|]|e|]; cbn [negb fst snd];
      try (eexists [_]; split; reflexivity).
    destruct (IH s1 (calls0 ++ [(c_str (fst member),
                                  mkObject (c_str (fst member)) (snd member),
                                  Return true)])%list) as (calls & Hcalls & Hend).
    exists ((c_str (fst member), mkObject (c_str (fst member)) (snd member), Return true)
              :: calls).
    rewrite Hcalls, Hend, <- app_assoc. split; [reflexivity|].
    symmetry. now apply after_calls_cons.
Qed.

(** X14: [iterate] over an object ends as the last call of the callback
    ends: it returns when no call was made or the last call returned, with
    either answer, and it throws the exception, or fails the assertion, that
    left the last call. *)
Theorem iterate_ends_as_the_last_call {S : Type} (callback : ObjectCallback S)
    (this : ObjectImplBase) (members : list Member) (s : S) :
  value_ this = VObject members ->
  fst (iterate this callback s)
  = after_calls (snd (snd (iterate this (recording callback) (s, [])))).
Proof.
  intros Hv. unfold iterate. rewrite Hv. cbn [rapidjson.GetObject].
  destruct (iterate_members_ends callback members s []) as (calls & Hcalls & Hend).
  rewrite Hcalls, Hend. reflexivity.
Qed.

Lemma iterate_ends_as_the_last_call_witness :
  value_ Examples.xy = VObject [("x", VInteger 1); ("y", VInteger 2)]
  /\ iterate Examples.xy (Failing.throw_at "x") [] = (Throw (Exception "no x"), ["x"])
  /\ snd (snd (iterate Examples.xy (recording (Failing.throw_at "x")) ([], [])))
     = [("x", mkObject "x" (VInteger 1), Throw (Exception "no x"))]
  /\ fst (iterate Examples.xy (Failing.throw_at "x") [])
     = after_calls
         (snd (snd (iterate Examples.xy (recording (Failing.throw_at "x")) ([], [])))).
Proof.
  split; [reflexivity|]. split; [reflexivity|]. split; [reflexivity|].
  exact (iterate_ends_as_the_last_call (Failing.throw_at "x") Examples.xy
           [("x", VInteger 1); ("y", VInteger 2)] [] eq_refl).
Defined.

(** ** What the strict accessors return *)

(** The member found is of another kind than the accessor's. *)
Ltac other_kind :=
  split; [discriminate|intros H; decompose record H; congruence].

(** In terms of the lookup: a strict accessor returns exactly when the
    member found is of its kind, a string read up to its first NUL byte and
    an integer only from -2^63 to 2^63 - 1. *)
Lemma strict_accessors_by_lookup :
  forall (this : ObjectImplBase) (k : string),
    (forall b, getBoolean this k = Return b
               <-> exists n, rapidjson.FindMember (value_ this) (c_str k)
                             = Return (Some (n, VBool b)))
    /\ (forall i, getInteger this k = Return i
               <-> (- 2 ^ 63 <= i < 2 ^ 63
                    /\ exists n, rapidjson.FindMember (value_ this) (c_str k)
                                 = Return (Some (n, VInteger i))))
    /\ (forall d, getDouble this k = Return d
               <-> exists n, rapidjson.FindMember (value_ this) (c_str k)
                             = Return (Some (n, VDouble d)))
    /\ (forall s, getString this k = Return s
               <-> exists n t, rapidjson.FindMember (value_ this) (c_str k)
                               = Return (Some (n, VString t))
                               /\ s = c_str t)
    /\ (forall n i, rapidjson.FindMember (value_ this) (c_str k)
                    = Return (Some (n, VInteger i)) ->
                    2 ^ 63 <= i ->
                    getInteger this k = Throw (missing_or_not this "an integer" k)).
Proof.
  intros this k. unfold getBoolean, getInteger, getDouble, getString.
  destruct (rapidjson.FindMember (value_ this) (c_str k)) as [[[n v]|]|e|];
    cbn [bind].
  2-4: repeat split; try discriminate; intros H; decompose record H; congruence.
  split; [|split; [|split; [|split]]].
  - intros b. destruct v; cbn [rapidjson.IsBool negb rapidjson.GetBool];
      try other_kind.
    split.
    + intros [= ->]. now exists n.
    + intros [m [= _ ->]]. reflexivity.
  - intros i. destruct v; cbn [rapidjson.IsInt64 negb]; try other_kind.
    unfold rapidjson.GetInt64. cbn [rapidjson.IsInt64].
    destruct ((- 2 ^ 63 <=? i0) && (i0 <? 2 ^ 63)) eqn:E; cbn [negb].
    + apply andb_prop in E. destruct E as [E1 E2].
      apply Z.leb_le in E1. apply Z.ltb_lt in E2. split.
      * intros [= ->]. split; [split; assumption|now exists n].
      * intros [_ [m [= _ ->]]]. reflexivity.
    + split; [discriminate|]. intros [[H1 H2] [m [= _ ->]]].
      apply Z.leb_le in H1. apply Z.ltb_lt in H2. rewrite H1, H2 in E. discriminate.
  - intros d. destruct v; cbn [rapidjson.IsDouble negb rapidjson.GetDouble];
      try other_kind.
    split.
    + intros [= ->]. now exists n.
    + intros [m [= _ ->]]. reflexivity.
  - intros s. destruct v; cbn [rapidjson.IsString negb rapidjson.GetString];
      try other_kind.
    split.
    + intros [= <-]. now exists n, s0.
    + intros [m [t [[= _ ->] ->]]]. reflexivity.
  - intros m i [= _ ->] Hi. cbn [rapidjson.IsInt64].
    assert (E : (i <? 2 ^ 63) = false) by (apply Z.ltb_ge; exact Hi).
    rewrite E, andb_false_r. reflexivity.
Qed.

(** ** Loading a text with a NUL byte *)

Lemma c_str_idempotent (s : string) : c_str (c_str s) = c_str s.
Proof. apply c_str_nul_free, nul_free_c_str. Qed.

(** X9: [LoadFromString] reads the text up to its first NUL byte: whatever
    the parser, a text and the text cut there print the same and end the
    same, so that what follows a NUL byte is never parsed. *)
Theorem LoadFromString_reads_up_to_NUL :
  forall (ParseErrorCode : Type) (Parse : string -> ParseResult ParseErrorCode)
         (GetParseError_En : ParseErrorCode -> string)
         (Reader_events : string -> list Sax.Event) (json tail : string),
    LoadFromString ParseErrorCode Parse GetParseError_En Reader_events json
    = LoadFromString ParseErrorCode Parse GetParseError_En Reader_events (c_str json)
    /\ (nul_free json = true ->
        LoadFromString ParseErrorCode Parse GetParseError_En Reader_events
          (json ++ String NUL tail)
        = LoadFromString ParseErrorCode Parse GetParseError_En Reader_events json).
Proof.
  intros. unfold LoadFromString. split.
  - now rewrite c_str_idempotent.
  - intros Hnul. rewrite (c_str_append json (String NUL tail) Hnul).
    cbn [c_str]. rewrite Ascii.eqb_refl, append_empty.
    now rewrite (c_str_nul_free json Hnul).
Qed.

(** With the reduced parser: an empty object, a NUL byte and more text. *)
Example LoadFromString_stops_at_NUL :
  snd (MiniJson.LoadFromString ("{}" ++ String NUL "]"))
  = Return (mkRoot (VObject []))
  /\ snd (MiniJson.LoadFromString "{}]")
     = Throw (Exception
                ("Error(offset 2): The document root must not be followed by other values."
                 ++ LF)).
Proof. split; reflexivity. Qed.

(** ** What LoadFromString prints *)

Lemma IterativeParse_prints (events : list Sax.Event) (stdout : string) :
  IterativeParse events stdout
  = stdout ++ String.concat "" (map (fun e => fst (PrintHandler e)) events).
Proof.
  revert stdout. induction events as [|e events IH]; intros stdout.
  - cbn [IterativeParse map String.concat]. now rewrite append_empty.
  - cbn [IterativeParse map].
    assert (Hmore : snd (PrintHandler e) = true) by (destruct e; reflexivity).
    destruct (PrintHandler e) as [printed more]. cbn [fst snd] in *. subst more.
    rewrite IH, append_assoc. f_equal.
    destruct events as [|e' events]; cbn [map String.concat]; [|reflexivity].
    now rewrite append_empty.
Qed.

(** X13: [LoadFromString] writes to the standard output: the name of every
    event the reader delivers on the text, in order, none being left out
    since the handler never stops the reader, and after them the words
    "Parse error" exactly when it throws.  What it returns does not depend on
    the events. *)
Theorem LoadFromString_prints :
  forall (ParseErrorCode : Type) (Parse : string -> ParseResult ParseErrorCode)
         (GetParseError_En : ParseErrorCode -> string)
         (Reader_events other_events : string -> list Sax.Event) (json : string),
    let load := LoadFromString ParseErrorCode Parse GetParseError_En in
    fst (load Reader_events json)
    = String.concat "" (map (fun e => fst (PrintHandler e)) (Reader_events (c_str json)))
        ++ (match snd (load Reader_events json) with
            | Throw _ => "Parse error"
            | _ => ""
            end)
    /\ snd (load other_events json) = snd (load Reader_events json).
Proof.
  intros. unfold load, LoadFromString. rewrite IterativeParse_prints.
  destruct (Parse (c_str json)); cbn [fst snd append]; split; try reflexivity.
  now rewrite append_empty.
Qed.

Example LoadFromString_prints_events :
  fst (MiniJson.LoadFromString "[1,")
  = "StartArray" ++ LF ++ "Uint" ++ LF ++ "Parse error".
Proof. reflexivity. Qed.

(** ** The order of the members in the serialization *)

(** X10: exchanging the first two members of an object, when their names
    differ, changes the serialization, which is what [hash()] digests,
    whatever the values and the members that follow are. *)
Theorem exchanging_members_changes_serialization
    (dtoa : double -> string) (name k1 k2 : string) (v1 v2 : Value)
    (rest : list Member) :
  k1 <> k2 ->
  serialization dtoa (mkObject name (VObject ((k1, v1) :: (k2, v2) :: rest)))
  <> serialization dtoa (mkObject name (VObject ((k2, v2) :: (k1, v1) :: rest))).
Proof.
  intros Hne H. apply Hne.
  exact (serialization_tells_first_name dtoa name name k1 k2 v1 v2 _ _ H).
Qed.

Lemma exchanging_members_changes_serialization_witness :
  "a" <> "b"
  /\ serialization Examples.no_dtoa Examples.ab
     <> serialization Examples.no_dtoa Examples.ba.
Proof.
  assert (Hne : "a" <> "b") by discriminate.
  split; [exact Hne|].
  exact (exchanging_members_changes_serialization Examples.no_dtoa "root" "a" "b"
           (VInteger 1) (VInteger 2) [] Hne).
Defined.

(** ** The serialization holds no NUL byte *)

Lemma nul_free_WriteString (s : string) : nul_free (Writer.WriteString s) = true.
Proof.
  unfold Writer.WriteString. cbn [nul_free].
  rewrite nul_free_append, nul_free_escaped. reflexivity.
Qed.

Lemma separator_nul_free (first : bool) (os : string) :
  nul_free os = true -> nul_free (if first then os else os ++ ",") = true.
Proof.
  intros H. destruct first; [exact H|]. now rewrite nul_free_append, H.
Qed.

Lemma AcceptElements_nul_free (dtoa : double -> string) (elements : list Value) :
  Forall (fun e => forall os, nul_free os = true ->
                              nul_free (snd (Writer.Accept dtoa e os)) = true)
         elements ->
  forall first os, nul_free os = true ->
    nul_free (snd (Writer.AcceptElements dtoa elements first os)) = true.
Proof.
  induction 1 as [|e rest He _ IH]; intros first os Hos; cbn [Writer.AcceptElements].
  - cbn [snd]. now rewrite nul_free_append, Hos.
  - specialize (He _ (separator_nul_free first os Hos)).
    destruct (Writer.Accept dtoa e (if first then os else os ++ ",")) as [ok os1].
    cbn [snd] in He. destruct ok; [now apply IH|exact He].
Qed.

Lemma AcceptMembers_nul_free (dtoa : double -> string) (members : list Member) :
  Forall (fun m => forall os, nul_free os = true ->
                              nul_free (snd (Writer.Accept dtoa (snd m) os)) = true)
         members ->
  forall first os, nul_free os = true ->
    nul_free (snd (Writer.AcceptMembers dtoa members first os)) = true.
Proof.
  induction 1 as [|[name value] rest He _ IH]; intros first os Hos;
    cbn [Writer.AcceptMembers].
  - cbn [snd]. now rewrite nul_free_append, Hos.
  - cbn [snd] in He.
    assert (Hkey : nul_free (((if first then os else os ++ ",")
                                ++ Writer.WriteString name) ++ ":") = true).
    { now rewrite !nul_free_append, (separator_nul_free first os Hos),
        nul_free_WriteString. }
    specialize (He _ Hkey).
    destruct (Writer.Accept dtoa value
                (((if first then os else os ++ ",") ++ Writer.WriteString name) ++ ":"))
      as [ok os1].
    cbn [snd] in He. destruct ok; [now apply IH|exact He].
Qed.

Lemma Accept_nul_free (dtoa : double -> string) :
  (forall d, nul_free (dtoa d) = true) ->
  forall v os, nul_free os = true -> nul_free (snd (Writer.Accept dtoa v os)) = true.
Proof.
  intros Hdtoa v.
  induction v as [|b|i|d|s|elements IH|members IH] using Value_nested_ind;
    intros os Hos.
  - cbn [Writer.Accept snd]. now rewrite nul_free_append, Hos.
  - cbn [Writer.Accept snd]. rewrite nul_free_append, Hos. now destruct b.
  - cbn [Writer.Accept snd]. now rewrite nul_free_append, Hos, nul_free_WriteInteger.
  - cbn [Writer.Accept]. destruct (Writer.IsNanOrInf d); cbn [snd]; [exact Hos|].
    now rewrite nul_free_append, Hos, Hdtoa.
  - cbn [Writer.Accept snd]. now rewrite nul_free_append, Hos, nul_free_WriteString.
  - rewrite Accept_array. apply AcceptElements_nul_free; [exact IH|].
    now rewrite nul_free_append, Hos.
  - rewrite Accept_object. apply AcceptMembers_nul_free; [exact IH|].
    now rewrite nul_free_append, Hos.
Qed.

(** X11: as long as the printing of doubles gives no NUL byte, the writer's
    text holds none, a NUL byte inside a name or a string being written as an
    escape: the string that [hash()] builds from [buffer.GetString()] is the
    whole text, and nothing of the tree is left out of the digest by a cut. *)
Theorem serialization_is_the_whole_text
    (dtoa : double -> string) (this : ObjectImplBase) :
  (forall d, nul_free (dtoa d) = true) ->
  nul_free (Writer.GetString dtoa (value_ this)) = true
  /\ serialization dtoa this = Writer.GetString dtoa (value_ this).
Proof.
  intros Hdtoa.
  assert (H : nul_free (Writer.GetString dtoa (value_ this)) = true).
  { unfold Writer.GetString. now apply Accept_nul_free. }
  split; [exact H|]. unfold serialization. now apply c_str_nul_free.
Qed.

Lemma serialization_is_the_whole_text_witness :
  (forall d, nul_free (Examples.no_dtoa d) = true)
  /\ serialization Examples.no_dtoa Examples.twice_nul
     = "{" ++ Examples.q ++ "a\u0000b" ++ Examples.q ++ ":1,"
           ++ Examples.q ++ "a\u0000b" ++ Examples.q ++ ":2}".
Proof.
  assert (Hdtoa : forall d, nul_free (Examples.no_dtoa d) = true) by reflexivity.
  split; [exact Hdtoa|].
  destruct (serialization_is_the_whole_text Examples.no_dtoa Examples.twice_nul Hdtoa)
    as [_ H].
  rewrite H. reflexivity.
Defined.

(** ** The serialization determines a tree without doubles *)

Lemma text_array (elements : list Value) :
  text (VArray elements) = "[" ++ text_elements elements true.
Proof. reflexivity. Qed.

Lemma text_object (members : list Member) :
  text (VObject members) = "{" ++ text_members members true.
Proof. reflexivity. Qed.

Lemma AcceptElements_text (dtoa : double -> string) (elements : list Value) :
  Forall (fun e => double_free e = true ->
                   forall os, Writer.Accept dtoa e os = (true, os ++ text e)) elements ->
  forallb double_free elements = true ->
  forall first os,
    Writer.AcceptElements dtoa elements first os
    = (true, os ++ text_elements elements first).
Proof.
  induction 1 as [|e rest He _ IH]; intros Hdf first os;
    cbn [Writer.AcceptElements text_elements]; [reflexivity|].
  cbn [forallb] in Hdf. apply andb_prop in Hdf. destruct Hdf as [Hd Hdf].
  rewrite (He Hd), (IH Hdf). f_equal.
  destruct first; cbn [append]; now rewrite ?append_assoc.
Qed.

Lemma AcceptMembers_text (dtoa : double -> string) (members : list Member) :
  Forall (fun m => double_free (snd m) = true ->
                   forall os, Writer.Accept dtoa (snd m) os = (true, os ++ text (snd m)))
         members ->
  forallb (fun m => double_free (snd m)) members = true ->
  forall first os,
    Writer.AcceptMembers dtoa members first os
    = (true, os ++ text_members members first).
Proof.
  induction 1 as [|[name value] rest He _ IH]; intros Hdf first os;
    cbn [Writer.AcceptMembers text_members]; [reflexivity|].
  cbn [forallb snd] in Hdf, He. apply andb_prop in Hdf. destruct Hdf as [Hd Hdf].
  rewrite (He Hd), (IH Hdf). f_equal.
  destruct first; cbn [append]; now rewrite ?append_assoc.
Qed.

(** On a tree without doubles the writer accepts every event and appends
    the text of the tree, whatever the printing of doubles. *)
Lemma Accept_text (dtoa : double -> string) (v : Value) :
  double_free v = true -> forall os, Writer.Accept dtoa v os = (true, os ++ text v).
Proof.
  induction v as [|b|i|d|s|elements IH|members IH] using Value_nested_ind;
    intros Hdf os; try reflexivity.
  - discriminate.
  - rewrite Accept_array, text_array. cbn [double_free] in Hdf.
    rewrite (AcceptElements_text dtoa elements IH Hdf). now rewrite append_assoc.
  - rewrite Accept_object, text_object. cbn [double_free] in Hdf.
    rewrite (AcceptMembers_text dtoa members IH Hdf). now rewrite append_assoc.
Qed.

Lemma serialization_text (dtoa : double -> string) (this : ObjectImplBase) :
  double_free (value_ this) = true -> serialization dtoa this = text (value_ this).
Proof.
  intros Hdf.
  assert (H : Writer.GetString dtoa (value_ this) = text (value_ this)).
  { unfold Writer.GetString. now rewrite (Accept_text dtoa _ Hdf). }
  assert (H' : Writer.GetString Examples.no_dtoa (value_ this) = text (value_ this)).
  { unfold Writer.GetString. now rewrite (Accept_text Examples.no_dtoa _ Hdf). }
  unfold serialization. rewrite H. apply c_str_nul_free. rewrite <- H'.
  unfold Writer.GetString. now apply Accept_nul_free.
Qed.

(** *** Numbers end where a character of another sort begins *)

Lemma digits_are_number_chars (d : Decimal.uint) :
  all_chars number_char (NilEmpty.string_of_uint d) = true.
Proof. induction d; simpl; auto. Qed.

Lemma WriteInteger_number_chars (i : Z) :
  all_chars number_char (Writer.WriteInteger i) = true.
Proof.
  unfold Writer.WriteInteger, NilZero.string_of_int, NilZero.string_of_uint.
  destruct (Z.to_int i) as [d|d]; destruct d; simpl;
    auto using digits_are_number_chars.
Qed.

Lemma WriteInteger_head (i : Z) :
  exists c s, Writer.WriteInteger i = String c s /\ number_char c = true.
Proof.
  pose proof (WriteInteger_number_chars i) as H.
  destruct (Writer.WriteInteger i) as [|c s] eqn:E.
  - exfalso. pose proof (WriteInteger_read_back i) as Hr. rewrite E in Hr. discriminate.
  - exists c, s. split; [reflexivity|]. simpl in H. now apply andb_prop in H.
Qed.

Lemma number_ends (a b r r' : string) :
  all_chars number_char a = true -> all_chars number_char b = true ->
  delimited r = true -> delimited r' = true ->
  a ++ r = b ++ r' -> a = b /\ r = r'.
Proof.
  revert b. induction a as [|c a IH]; intros [|d b]; simpl; intros Ha Hb Hr Hr' H.
  - now split.
  - exfalso. subst r. simpl in Hr. apply andb_prop in Hb. destruct Hb as [Hd _].
    now rewrite Hd in Hr.
  - exfalso. subst r'. simpl in Hr'. apply andb_prop in Ha. destruct Ha as [Hc _].
    now rewrite Hc in Hr'.
  - injection H as -> H. apply andb_prop in Ha, Hb.
    destruct Ha as [_ Ha], Hb as [_ Hb].
    destruct (IH b Ha Hb Hr Hr' H) as [-> ->]. now split.
Qed.

(** *** The first character tells the kind *)

Lemma text_head (v : Value) :
  double_free v = true -> exists c s, text v = String c s /\ kind_of_char c = kind v.
Proof.
  destruct v as [|b|i|d|s|elements|members]; intros Hdf.
  - now exists "n"%char, "ull".
  - destruct b; [now exists "t"%char, "rue"|now exists "f"%char, "alse"].
  - destruct (WriteInteger_head i) as (c & s & E & Hc). exists c, s.
    split; [exact E|]. unfold kind_of_char.
    assert (Hn : Ascii.eqb c "n" = false)
      by (destruct (Ascii.eqb_spec c "n"); [subst; discriminate|reflexivity]).
    assert (Ht : Ascii.eqb c "t" = false)
      by (destruct (Ascii.eqb_spec c "t"); [subst; discriminate|reflexivity]).
    assert (Hf : Ascii.eqb c "f" = false)
      by (destruct (Ascii.eqb_spec c "f"); [subst; discriminate|reflexivity]).
    now rewrite Hn, Ht, Hf, Hc.
  - discriminate.
  - now exists Writer.quote, (Writer.escaped s ++ String Writer.quote "").
  - rewrite text_array. now exists "["%char, (text_elements elements true).
  - rewrite text_object. now exists "{"%char, (text_members members true).
Qed.

Lemma text_same_kind (v v' : Value) (r r' : string) :
  double_free v = true -> double_free v' = true ->
  text v ++ r = text v' ++ r' -> kind v = kind v'.
Proof.
  intros Hv Hv' H.
  destruct (text_head v Hv) as (c & s & E & Hc).
  destruct (text_head v' Hv') as (c' & s' & E' & Hc').
  rewrite E, E' in H. injection H as -> _. congruence.
Qed.

(** A value does not begin with the character [c] when [c] announces no kind. *)
Lemma text_not_closing (v : Value) (r : string) (c : ascii) (s : string) :
  double_free v = true -> kind_of_char c = 7%nat -> text v ++ r <> String c s.
Proof.
  intros Hv Hc H. destruct (text_head v Hv) as (c' & s' & E & Hc').
  rewrite E in H. injection H as -> _. rewrite Hc in Hc'.
  destruct v; discriminate.
Qed.

(** *** Reading the text back *)

Lemma text_elements_delimited (l : list Value) (r : string) :
  delimited (text_elements l false ++ r) = true.
Proof. destruct l; reflexivity. Qed.

Lemma text_members_delimited (l : list Member) (r : string) :
  delimited (text_members l false ++ r) = true.
Proof. destruct l as [|[name value] l]; reflexivity. Qed.

Lemma text_elements_inj (l : list Value) :
  Forall read_back l -> forallb double_free l = true ->
  forall (l' : list Value) (first : bool) (r r' : string),
    forallb double_free l' = true ->
    text_elements l first ++ r = text_elements l' first ++ r' ->
    l = l' /\ r = r'.
Proof.
  induction 1 as [|e rest He _ IH]; intros Hdf [|e' rest'] first r r' Hdf' H;
    cbn [text_elements forallb] in *.
  - injection H as H. now split.
  - exfalso. apply andb_prop in Hdf'. destruct Hdf' as [Hd' _].
    destruct first; cbn [append] in H; [|discriminate].
    rewrite append_assoc in H. symmetry in H.
    now apply (text_not_closing e' _ "]"%char r Hd') in H.
  - exfalso. apply andb_prop in Hdf. destruct Hdf as [Hd _].
    destruct first; cbn [append] in H; [|discriminate].
    rewrite append_assoc in H.
    now apply (text_not_closing e _ "]"%char r' Hd) in H.
  - apply andb_prop in Hdf, Hdf'. destruct Hdf as [Hd Hdf], Hdf' as [Hd' Hdf'].
    assert (H1 : text e ++ text_elements rest false ++ r
                 = text e' ++ text_elements rest' false ++ r').
    { destruct first; cbn [append] in H; [|injection H as H];
        now rewrite !append_assoc in H. }
    destruct (He Hd e' _ _ Hd' (text_elements_delimited rest r)
                (text_elements_delimited rest' r') H1) as [-> H2].
    destruct (IH Hdf rest' false r r' Hdf' H2) as [-> ->]. now split.
Qed.

Lemma WriteString_inj (s s' r r' : string) :
  Writer.WriteString s ++ r = Writer.WriteString s' ++ r' -> s = s' /\ r = r'.
Proof.
  unfold Writer.WriteString. cbn [append]. intros H. injection H as H.
  rewrite !append_assoc in H. cbn [append] in H.
  pose proof (escaped_inj _ _ _ _ H) as ->.
  apply append_inv_head in H. injection H as H. now split.
Qed.

Lemma member_text (first : bool) (name : string) (value : Value) (tail r : string) :
  ((if first then "" else ",") ++ Writer.WriteString name ++ ":" ++ text value ++ tail)
    ++ r
  = (if first then "" else ",")
      ++ String Writer.quote
           (Writer.escaped name
              ++ String Writer.quote (String ":" (text value ++ tail ++ r))).
Proof.
  unfold Writer.WriteString.
  destruct first; cbn [append]; rewrite !append_assoc; cbn [append];
    rewrite ?append_assoc; reflexivity.
Qed.

Lemma text_members_inj (l : list Member) :
  Forall (fun m => read_back (snd m)) l ->
  forallb (fun m => double_free (snd m)) l = true ->
  forall (l' : list Member) (first : bool) (r r' : string),
    forallb (fun m => double_free (snd m)) l' = true ->
    text_members l first ++ r = text_members l' first ++ r' ->
    l = l' /\ r = r'.
Proof.
  induction 1 as [|[name value] rest He _ IH];
    intros Hdf [|[name' value'] rest'] first r r' Hdf' H;
    cbn [text_members forallb snd] in *.
  - injection H as H. now split.
  - exfalso. rewrite member_text in H. destruct first; discriminate H.
  - exfalso. rewrite member_text in H. destruct first; discriminate H.
  - apply andb_prop in Hdf, Hdf'. destruct Hdf as [Hd Hdf], Hdf' as [Hd' Hdf'].
    rewrite !member_text in H.
    assert (H1 : Writer.escaped name
                   ++ String Writer.quote
                        (String ":" (text value ++ text_members rest false ++ r))
                 = Writer.escaped name'
                     ++ String Writer.quote
                          (String ":" (text value' ++ text_members rest' false ++ r'))).
    { destruct first; cbn [append] in H; injection H as H; exact H. }
    pose proof (escaped_inj _ _ _ _ H1) as ->.
    apply append_inv_head in H1. injection H1 as H1.
    destruct (He Hd value' _ _ Hd' (text_members_delimited rest r)
                (text_members_delimited rest' r') H1) as [-> H2].
    destruct (IH Hdf rest' false r r' Hdf' H2) as [-> ->]. now split.
Qed.

Lemma text_read_back (v : Value) : read_back v.
Proof.
  induction v as [|b|i|d|s|elements IH|members IH] using Value_nested_ind;
    intros Hdf v' r r' Hdf' Hr Hr' H;
    pose proof (text_same_kind _ _ _ _ Hdf Hdf' H) as Hk;
    destruct v' as [|b'|i'|d'|s'|elements'|members']; cbn [kind] in Hk;
    try discriminate Hk.
  - cbn [text append] in H. injection H as H. now split.
  - destruct b, b'; cbn [text append] in H; try discriminate H;
      injection H as H; now split.
  - cbn [text] in H.
    destruct (number_ends _ _ _ _ (WriteInteger_number_chars i)
                (WriteInteger_number_chars i') Hr Hr' H) as [Hi ->].
    apply WriteInteger_inj in Hi. subst. now split.
  - discriminate Hdf.
  - cbn [text] in H. apply WriteString_inj in H. destruct H as [-> ->]. now split.
  - rewrite !text_array in H. cbn [append] in H. injection H as H.
    cbn [double_free] in Hdf, Hdf'.
    destruct (text_elements_inj elements IH Hdf elements' true r r' Hdf' H) as [-> ->].
    now split.
  - rewrite !text_object in H. cbn [append] in H. injection H as H.
    cbn [double_free] in Hdf, Hdf'.
    destruct (text_members_inj members IH Hdf members' true r r' Hdf' H) as [-> ->].
    now split.
Qed.

(** X12: two views of trees that hold no double and have the same
    serialization are views of the same tree: what [hash()] digests tells
    the tree apart from every other one, names, values and order, so that two
    different trees can share a hash only where the string hash collides. *)
Theorem serialization_determines_the_tree
    (dtoa : double -> string) (a b : ObjectImplBase) :
  double_free (value_ a) = true -> double_free (value_ b) = true ->
  serialization dtoa a = serialization dtoa b ->
  value_ a = value_ b.
Proof.
  intros Ha Hb H. rewrite (serialization_text dtoa a Ha), (serialization_text dtoa b Hb) in H.
  assert (H' : text (value_ a) ++ "" = text (value_ b) ++ "")
    by now rewrite !append_empty.
  now destruct (text_read_back (value_ a) Ha (value_ b) "" "" Hb eq_refl eq_refl H').
Qed.

Lemma serialization_determines_the_tree_witness :
  double_free (value_ Examples.ab) = true
  /\ double_free (value_ (mkObject "again" (value_ Examples.ab))) = true
  /\ serialization Examples.no_dtoa Examples.ab
     = serialization Examples.no_dtoa (mkObject "again" (value_ Examples.ab))
  /\ value_ Examples.ab = value_ (mkObject "again" (value_ Examples.ab)).
Proof.
  split; [reflexivity|]. split; [reflexivity|]. split; [reflexivity|].
  exact (serialization_determines_the_tree Examples.no_dtoa Examples.ab
           (mkObject "again" (value_ Examples.ab)) eq_refl eq_refl eq_refl).
Defined.

(** * The accessors by the members of the object

    A key is handed to the lookup as [name.c_str()]: what is looked up is the
    key read up to its first NUL byte, [c_str k], which is [k] itself when
    [k] holds none.  The statements below name the members of the object and
    not the answer of the lookup. *)

Lemma first_member_split (name : string) (members : list Member) :
  In name (map fst members) ->
  exists before v after,
    members = (before ++ (name, v) :: after)%list /\ ~ In name (map fst before).
Proof.
  induction members as [|[n w] members IH]; simpl; [tauto|]. intros H.
  destruct (string_dec n name) as [->|Hne].
  - exists [], w, members. split; [reflexivity|]. simpl. tauto.
  - destruct H as [H|H]; [contradiction|].
    destruct (IH H) as (before & v & after & -> & Hb).
    exists ((n, w) :: before), v, after. split; [reflexivity|].
    simpl. intros [E|E]; [contradiction|tauto].
Qed.

Lemma find_some_split (name : string) (members : list Member) (m : Member) :
  find (rapidjson.StringEqual name) members = Some m ->
  exists before after,
    members = (before ++ m :: after)%list
    /\ fst m = name /\ ~ In name (map fst before).
Proof.
  induction members as [|a members IH]; simpl; [discriminate|].
  unfold rapidjson.StringEqual at 1.
  destruct (String.eqb name (fst a)) eqn:E.
  - intros [= <-]. apply String.eqb_eq in E.
    exists [], members. split; [reflexivity|]. split; [now symmetry|]. simpl. tauto.
  - intros H. destruct (IH H) as (before & after & -> & Hm & Hb).
    exists (a :: before), after. split; [reflexivity|]. split; [exact Hm|].
    apply String.eqb_neq in E. simpl. intros [E1|E1]; [congruence|tauto].
Qed.

Lemma lookup_without_member (this : ObjectImplBase) (members : list Member) (k : string) :
  value_ this = VObject members -> ~ In (c_str k) (map fst members) ->
  rapidjson.FindMember (value_ this) (c_str k) = Return None.
Proof.
  intros Hv Hnot. rewrite Hv. cbn [rapidjson.FindMember]. f_equal.
  now apply find_none_iff.
Qed.

Lemma lookup_first_member (this : ObjectImplBase) (before after : list Member)
    (k : string) (v : Value) :
  value_ this = VObject (before ++ (c_str k, v) :: after) ->
  ~ In (c_str k) (map fst before) ->
  rapidjson.FindMember (value_ this) (c_str k) = Return (Some (c_str k, v)).
Proof.
  intros Hv Hnot. rewrite Hv. cbn [rapidjson.FindMember]. f_equal.
  now apply find_first_match.
Qed.

Lemma lookup_found (this : ObjectImplBase) (members : list Member) (k n : string)
    (v : Value) :
  value_ this = VObject members ->
  rapidjson.FindMember (value_ this) (c_str k) = Return (Some (n, v)) ->
  n = c_str k
  /\ exists before after,
       members = (before ++ (c_str k, v) :: after)%list
       /\ ~ In (c_str k) (map fst before).
Proof.
  intros Hv H. rewrite Hv in H. cbn [rapidjson.FindMember] in H.
  injection H as H. apply find_some_split in H.
  destruct H as (before & after & -> & Hn & Hb). cbn [fst] in Hn. subst n.
  split; [reflexivity|]. now exists before, after.
Qed.

Lemma hasObject_without_member (this : ObjectImplBase) (members : list Member)
    (k : string) :
  value_ this = VObject members -> ~ In (c_str k) (map fst members) ->
  hasObject this k = Return false.
Proof.
  intros Hv Hnot. unfold hasObject, rapidjson.HasMember.
  now rewrite (lookup_without_member this members k Hv Hnot).
Qed.

Lemma hasObject_with_member (this : ObjectImplBase) (members : list Member)
    (k : string) :
  value_ this = VObject members -> In (c_str k) (map fst members) ->
  hasObject this k = Return true.
Proof.
  intros Hv Hin. destruct (first_member_split _ _ Hin) as (before & v & after & E & Hb).
  subst members. unfold hasObject, rapidjson.HasMember.
  now rewrite (lookup_first_member this before after k v Hv Hb).
Qed.

(** ** Defaulted accessors *)

(** C2, as the code has it: with the key read up to its first NUL byte (all
    of it when it holds none), a defaulted accessor returns the default when
    no member of the object has this name and is the strict accessor when a
    member has it: on the first such member it returns the member's value
    when the kind is the accessor's and throws the strict accessor's
    exception when it is not. *)
Theorem defaulted_accessors_by_members
    (this : ObjectImplBase) (members : list Member) (k : string) :
  value_ this = VObject members ->
  (~ In (c_str k) (map fst members) ->
     (forall d, getBoolean_default this k d = Return d)
     /\ (forall d, getInteger_default this k d = Return d)
     /\ (forall d, getString_default this k d = Return d)
     /\ (forall d, getDouble_default this k d = Return d))
  /\ (In (c_str k) (map fst members) ->
     (forall d, getBoolean_default this k d = getBoolean this k)
     /\ (forall d, getInteger_default this k d = getInteger this k)
     /\ (forall d, getString_default this k d = getString this k)
     /\ (forall d, getDouble_default this k d = getDouble this k))
  /\ (forall before v after,
        members = (before ++ (c_str k, v) :: after)%list ->
        ~ In (c_str k) (map fst before) ->
        (rapidjson.IsBool v = false ->
           getBoolean this k = Throw (missing_or_not this "a boolean" k)
           /\ forall d, getBoolean_default this k d
                        = Throw (missing_or_not this "a boolean" k))
        /\ (rapidjson.IsInt64 v = false ->
           getInteger this k = Throw (missing_or_not this "an integer" k)
           /\ forall d, getInteger_default this k d
                        = Throw (missing_or_not this "an integer" k))
        /\ (rapidjson.IsString v = false ->
           getString this k = Throw (missing_or_not this "a string" k)
           /\ forall d, getString_default this k d
                        = Throw (missing_or_not this "a string" k))
        /\ (rapidjson.IsDouble v = false ->
           getDouble this k = Throw (missing_or_not this "a double" k)
           /\ forall d, getDouble_default this k d
                        = Throw (missing_or_not this "a double" k))
        /\ (forall b, v = VBool b -> forall d, getBoolean_default this k d = Return b)
        /\ (forall i, v = VInteger i -> - 2 ^ 63 <= i < 2 ^ 63 ->
                      forall d, getInteger_default this k d = Return i)
        /\ (forall s, v = VString s ->
                      forall d, getString_default this k d = Return (c_str s))
        /\ (forall x, v = VDouble x -> forall d, getDouble_default this k d = Return x))
  /\ (nul_free k = true -> c_str k = k).
Proof.
  intros Hv.
  destruct (defaulted_accessors_cover_absence_only this k) as (Habsent & Hpresent & Hwrong).
  split; [|split; [|split]].
  - intros Hnot. apply Habsent. now apply (hasObject_without_member this members).
  - intros Hin. apply Hpresent. now apply (hasObject_with_member this members).
  - intros before v after E Hb. subst members.
    pose proof (lookup_first_member this before after k v Hv Hb) as Hfind.
    destruct (Hwrong (c_str k) v Hfind) as (Hbool & Hint & Hstr & Hdbl).
    split; [exact Hbool|]. split; [exact Hint|]. split; [exact Hstr|].
    split; [exact Hdbl|].
    unfold getBoolean_default, getInteger_default, getString_default, getDouble_default,
      getBoolean, getInteger, getString, getDouble, rapidjson.HasMember.
    rewrite Hfind. cbn [bind negb].
    split; [intros b -> d; reflexivity|].
    split; [|split; [intros s -> d; reflexivity|intros x -> d; reflexivity]].
    intros i -> [Hlo Hhi] d. unfold rapidjson.GetInt64. cbn [rapidjson.IsInt64].
    apply Z.leb_le in Hlo. apply Z.ltb_lt in Hhi. now rewrite Hlo, Hhi.
  - apply c_str_nul_free.
Qed.

Lemma defaulted_accessors_by_members_witness :
  value_ Examples.scalars
  = VObject [("flag", VBool true); ("n", VInteger 7);
             ("x", VDouble Examples.one_and_a_half); ("s", VString "str")]
  /\ getBoolean_default Examples.scalars "missing" false = Return false
  /\ getInteger_default Examples.scalars "n" 0 = Return 7
  /\ getBoolean Examples.scalars "n"
     = Throw (Exception "key 'n' missing or not a boolean in 'root'")
  /\ getBoolean_default Examples.scalars "n" true
     = Throw (Exception "key 'n' missing or not a boolean in 'root'").
Proof.
  pose proof (defaulted_accessors_by_members Examples.scalars _ "missing" eq_refl)
    as (Habsent & _).
  pose proof (defaulted_accessors_by_members Examples.scalars _ "n" eq_refl)
    as (_ & _ & Hfirst & _).
  assert (Hnot : ~ In (c_str "missing")
                   (map fst [("flag", VBool true); ("n", VInteger 7);
                             ("x", VDouble Examples.one_and_a_half);
                             ("s", VString "str")])).
  { simpl. intros [H|[H|[H|[H|[]]]]]; discriminate H. }
  destruct (Habsent Hnot) as (Hb & _).
  assert (Hbefore : ~ In (c_str "n") (map fst [("flag", VBool true)])).
  { simpl. intros [H|[]]. discriminate H. }
  destruct (Hfirst [("flag", VBool true)] (VInteger 7)
              [("x", VDouble Examples.one_and_a_half); ("s", VString "str")]
              eq_refl Hbefore) as (Hbool & _ & _ & _ & _ & Hint & _).
  destruct (Hbool eq_refl) as [Hstrict Hdefault].
  split; [reflexivity|]. split; [exact (Hb false)|].
  split; [apply (Hint 7 eq_refl); split; [discriminate|reflexivity]|].
  split; [exact Hstrict|exact (Hdefault true)].
Defined.

(** C2, as stated, fails for a key that holds a NUL byte.  In {"a": true}
    the key a, NUL, b is absent, and the defaulted accessor returns true, the
    member a, in place of the default false.  In the object whose one member
    is named a, NUL, b the key a, NUL, b is present and the member is a
    boolean: the defaulted accessor returns the default and the strict one
    throws. *)
Lemma defaulted_accessors_on_key_with_NUL :
  (value_ WithNul.a_true = VObject [("a", VBool true)]
   /\ Examples.a_nul_b <> "a"
   /\ getBoolean_default WithNul.a_true Examples.a_nul_b false = Return true)
  /\ (value_ WithNul.nul_true = VObject [(Examples.a_nul_b, VBool true)]
      /\ getBoolean_default WithNul.nul_true Examples.a_nul_b false = Return false
      /\ getBoolean WithNul.nul_true Examples.a_nul_b
         = Throw (missing_or_not WithNul.nul_true "a boolean" Examples.a_nul_b)).
Proof.
  split; (split; [reflexivity|]); split; try reflexivity. discriminate.
Qed.

(** ** Integers and doubles *)

(** C3, as the code has it: with the key read up to its first NUL byte (all
    of it when it holds none), on the first member of this name [getInteger]
    throws when the member is a double and [getDouble] throws when it is an
    integer; the double comes back from [getDouble] alone and the integer,
    when it fits [int64_t], from [getInteger] alone, so that what either
    returns is the member's value of its own kind. *)
Theorem numeric_kinds_by_members
    (this : ObjectImplBase) (before after : list Member) (k : string) (v : Value) :
  value_ this = VObject (before ++ (c_str k, v) :: after) ->
  ~ In (c_str k) (map fst before) ->
  (forall d, v = VDouble d ->
             getInteger this k = Throw (missing_or_not this "an integer" k)
             /\ getDouble this k = Return d)
  /\ (forall i, v = VInteger i ->
             getDouble this k = Throw (missing_or_not this "a double" k)
             /\ (- 2 ^ 63 <= i < 2 ^ 63 -> getInteger this k = Return i))
  /\ (forall i, getInteger this k = Return i -> v = VInteger i /\ - 2 ^ 63 <= i < 2 ^ 63)
  /\ (forall d, getDouble this k = Return d -> v = VDouble d)
  /\ (nul_free k = true -> c_str k = k).
Proof.
  intros Hv Hb.
  pose proof (lookup_first_member this before after k v Hv Hb) as Hfind.
  destruct (numeric_kinds_are_not_interchangeable this k) as (Hdi & Hid & Hint & Hdbl).
  split; [|split; [|split; [|split]]].
  - intros d ->. split; [exact (Hdi _ d Hfind)|].
    unfold getDouble. rewrite Hfind. reflexivity.
  - intros i ->. split; [exact (Hid _ i Hfind)|].
    intros [Hlo Hhi]. unfold getInteger. rewrite Hfind. cbn [bind].
    unfold rapidjson.GetInt64. cbn [rapidjson.IsInt64].
    apply Z.leb_le in Hlo. apply Z.ltb_lt in Hhi. now rewrite Hlo, Hhi.
  - intros i H. destruct (Hint i H) as [Hrange [n Hn]].
    rewrite Hfind in Hn. injection Hn as _ ->. now split.
  - intros d H. destruct (Hdbl d H) as [n Hn].
    rewrite Hfind in Hn. now injection Hn as _ ->.
  - apply c_str_nul_free.
Qed.

Lemma numeric_kinds_by_members_witness :
  value_ Examples.scalars
  = VObject ([("flag", VBool true); ("n", VInteger 7)]
               ++ (c_str "x", VDouble Examples.one_and_a_half) :: [("s", VString "str")])
  /\ getInteger Examples.scalars "x"
     = Throw (Exception "key 'x' missing or not an integer in 'root'")
  /\ getDouble Examples.scalars "x" = Return Examples.one_and_a_half
  /\ getDouble Examples.scalars "n"
     = Throw (Exception "key 'n' missing or not a double in 'root'")
  /\ getInteger Examples.scalars "n" = Return 7.
Proof.
  assert (Hx : ~ In (c_str "x") (map fst [("flag", VBool true); ("n", VInteger 7)])).
  { simpl. intros [H|[H|[]]]; discriminate H. }
  assert (Hn : ~ In (c_str "n") (map fst [("flag", VBool true)])).
  { simpl. intros [H|[]]. discriminate H. }
  destruct (numeric_kinds_by_members Examples.scalars
              [("flag", VBool true); ("n", VInteger 7)] [("s", VString "str")]
              "x" (VDouble Examples.one_and_a_half) eq_refl Hx) as (Hd & _).
  destruct (numeric_kinds_by_members Examples.scalars
              [("flag", VBool true)]
              [("x", VDouble Examples.one_and_a_half); ("s", VString "str")]
              "n" (VInteger 7) eq_refl Hn) as (_ & Hi & _).
  destruct (Hd _ eq_refl) as [Hd1 Hd2]. destruct (Hi _ eq_refl) as [Hi1 Hi2].
  split; [reflexivity|]. split; [exact Hd1|]. split; [exact Hd2|].
  split; [exact Hi1|]. apply Hi2. split; [discriminate|reflexivity].
Defined.

(** C3, as stated, fails for a key that holds a NUL byte: in the object with
    the member a, 5, and the member named a, NUL, b, 1.5, the value at the
    key a, NUL, b is a double, and [getInteger] on this key returns 5. *)
Lemma getInteger_on_key_with_NUL :
  value_ WithNul.int_and_double
  = VObject [("a", VInteger 5); (Examples.a_nul_b, VDouble Examples.one_and_a_half)]
  /\ Examples.a_nul_b <> "a"
  /\ getInteger WithNul.int_and_double Examples.a_nul_b = Return 5.
Proof.
  split; [reflexivity|]. split; [discriminate|reflexivity].
Qed.

(** ** getObject on an absent key *)

(** C4, as the code has it: with the key read up to its first NUL byte (all
    of it when it holds none), when no member of the object has this name,
    [getObject] with [allow_empty] returns a view of the shared empty object,
    for which [empty()] is true and [iterate] calls nothing, and without
    [allow_empty] it throws the exception for a missing key. *)
Theorem getObject_without_member
    (this : ObjectImplBase) (members : list Member) (k : string) :
  value_ this = VObject members ->
  ~ In (c_str k) (map fst members) ->
  (exists object,
      getObject this k true = Return object
      /\ value_ object = empty_rapid_json_value_
      /\ value_ object = VObject []
      /\ empty object = Return true
      /\ (forall (S : Type) (callback : ObjectCallback S) (s : S),
             iterate object callback s = (Return tt, s)
             /\ iterate object (recording callback) (s, []) = (Return tt, (s, []))))
  /\ getObject this k false = Throw (missing_or_not this "an integer" k)
  /\ (nul_free k = true -> c_str k = k /\ ~ In k (map fst members)).
Proof.
  intros Hv Hnot.
  destruct (getObject_absent_key this k (hasObject_without_member this members k Hv Hnot))
    as [Hempty Hthrow].
  split; [exact Hempty|]. split; [exact Hthrow|].
  intros Hnul. rewrite (c_str_nul_free k Hnul) in Hnot. split; [|exact Hnot].
  now apply c_str_nul_free.
Qed.

Lemma getObject_without_member_witness :
  value_ Examples.xy = VObject [("x", VInteger 1); ("y", VInteger 2)]
  /\ ~ In (c_str "z") (map fst [("x", VInteger 1); ("y", VInteger 2)])
  /\ getObject Examples.xy "z" true = Return (mkObject "z" (VObject []))
  /\ empty (mkObject "z" (VObject [])) = Return true
  /\ getObject Examples.xy "z" false
     = Throw (Exception "key 'z' missing or not an integer in 'root'").
Proof.
  assert (Hnot : ~ In (c_str "z") (map fst [("x", VInteger 1); ("y", VInteger 2)])).
  { simpl. intros [H|[H|[]]]; discriminate H. }
  destruct (getObject_without_member Examples.xy _ "z" eq_refl Hnot)
    as (_ & Hthrow & _).
  split; [reflexivity|]. split; [exact Hnot|]. split; [reflexivity|].
  split; [reflexivity|exact Hthrow].
Defined.

(** C4, as stated, fails for a key that holds a NUL byte: in {"a": 1} the
    key a, NUL, b is absent, and [getObject] on it, with [allow_empty] and
    without, returns the view of the member a, which is not empty. *)
Lemma getObject_on_key_with_NUL :
  value_ WithNul.a_one = VObject [("a", VInteger 1)]
  /\ Examples.a_nul_b <> "a"
  /\ getObject WithNul.a_one Examples.a_nul_b true
     = Return (mkObject Examples.a_nul_b (VInteger 1))
  /\ empty (mkObject Examples.a_nul_b (VInteger 1)) = Return false
  /\ getObject WithNul.a_one Examples.a_nul_b false
     = Return (mkObject Examples.a_nul_b (VInteger 1)).
Proof.
  split; [reflexivity|]. split; [discriminate|]. repeat split.
Qed.

(** ** Empty arrays *)

(** C10, as the code has it: an array without elements is an array.
    [asObjectArray] on one returns the empty sequence, and so does
    [getObjectArray] when, with the key read up to its first NUL byte (all
    of it when it holds none), the first member of this name is one.
    [asObjectArray] throws only on a node that is not an array, and
    [getObjectArray] only when no member has the name or the first that has
    it is not an array. *)
Theorem empty_array_by_members :
  forall (this : ObjectImplBase) (k : string),
    (value_ this = VArray [] -> asObjectArray this = Return [])
    /\ (forall before after,
          value_ this = VObject (before ++ (c_str k, VArray []) :: after) ->
          ~ In (c_str k) (map fst before) ->
          getObjectArray this k = Return [])
    /\ (forall e, asObjectArray this = Throw e ->
                  rapidjson.IsArray (value_ this) = false
                  /\ e = Exception ("'" ++ name_ this ++ "' is not an array"))
    /\ (forall members e,
          value_ this = VObject members ->
          getObjectArray this k = Throw e ->
          e = missing_or_not this "a array" k
          /\ (~ In (c_str k) (map fst members)
              \/ exists before v after,
                   members = (before ++ (c_str k, v) :: after)%list
                   /\ ~ In (c_str k) (map fst before)
                   /\ rapidjson.IsArray v = false))
    /\ (forall elements, value_ this = VArray elements ->
                  asObjectArray this = Return (array_items (name_ this) elements))
    /\ (forall before elements after,
          value_ this = VObject (before ++ (c_str k, VArray elements) :: after) ->
          ~ In (c_str k) (map fst before) ->
          getObjectArray this k = Return (array_items k elements))
    /\ (nul_free k = true -> c_str k = k).
Proof.
  intros this k.
  destruct (empty_array_gives_empty_sequence this k)
    as (Has & Hget & Hasthrow & Hgetthrow & Hasall & Hgetall).
  split; [exact Has|]. split; [|split; [exact Hasthrow|split; [|split; [exact Hasall|split]]]].
  - intros before after Hv Hb.
    exact (Hget _ (lookup_first_member this before after k (VArray []) Hv Hb)).
  - intros members e Hv H. destruct (Hgetthrow e H) as [He Hcase].
    split; [exact He|]. destruct Hcase as [Hnone|(n & v & Hfind & Hv')].
    + left. rewrite Hv in Hnone. cbn [rapidjson.FindMember] in Hnone.
      injection Hnone as Hnone. now apply find_none_iff.
    + right. destruct (lookup_found this members k n v Hv Hfind)
        as (_ & before & after & E & Hb).
      now exists before, v, after.
  - intros before elements after Hv Hb.
    exact (Hgetall _ _ (lookup_first_member this before after k (VArray elements) Hv Hb)).
  - apply c_str_nul_free.
Qed.

Example getObjectArray_of_empty_array :
  getObjectArray Examples.arrays "e" = Return []
  /\ asObjectArray (mkObject "e" (VArray [])) = Return []
  /\ getObjectArray Examples.arrays "zz"
     = Throw (Exception "key 'zz' missing or not a array in 'root'").
Proof. repeat split. Qed.

(** C10, as stated, fails for a key that holds a NUL byte: in the object
    whose one member, named a, NUL, b, is an empty array, [getObjectArray] on
    the key a, NUL, b throws. *)
Lemma getObjectArray_on_key_with_NUL :
  value_ WithNul.nul_array = VObject [(Examples.a_nul_b, VArray [])]
  /\ getObjectArray WithNul.nul_array Examples.a_nul_b
     = Throw (missing_or_not WithNul.nul_array "a array" Examples.a_nul_b).
Proof. split; reflexivity. Qed.

(** ** getStringArray *)

(** C5, as the code has it: with the key read up to its first NUL byte (all
    of it when it holds none), [getStringArray] throws the exception for a
    missing array when no member has this name or the first that has it is
    not an array, throws another exception when an element of that array is
    not a string, and otherwise returns the strings in array order, each one
    read up to its first NUL byte, which is the whole string when it holds
    none. *)
Theorem getStringArray_by_members
    (this : ObjectImplBase) (members : list Member) (k : string) :
  value_ this = VObject members ->
  (~ In (c_str k) (map fst members) ->
     getStringArray this k = Throw (missing_or_not this "an array" k))
  /\ (forall before v after,
        members = (before ++ (c_str k, v) :: after)%list ->
        ~ In (c_str k) (map fst before) ->
        (rapidjson.IsArray v = false ->
           getStringArray this k = Throw (missing_or_not this "an array" k))
        /\ (forall elements,
              v = VArray elements ->
              existsb (fun e => negb (rapidjson.IsString e)) elements = true ->
              getStringArray this k
              = Throw (Exception ("array '" ++ k ++ "' does not contain all strings")))
        /\ (forall strings,
              v = VArray (map VString strings) ->
              getStringArray this k = Return (map c_str strings)
              /\ (forallb nul_free strings = true ->
                  getStringArray this k = Return strings)))
  /\ missing_or_not this "an array" k
     <> Exception ("array '" ++ k ++ "' does not contain all strings")
  /\ (nul_free k = true -> c_str k = k).
Proof.
  intros Hv.
  destruct (getStringArray_outcomes this k) as (Habsent & Hnot & Hmixed & Hall & Hdiff).
  split; [|split; [|split; [exact Hdiff|apply c_str_nul_free]]].
  - intros Hno. apply Habsent. now apply (hasObject_without_member this members).
  - intros before v after E Hb. subst members.
    pose proof (lookup_first_member this before after k v Hv Hb) as Hfind.
    split; [exact (Hnot _ v Hfind)|]. split.
    + intros elements ->. exact (Hmixed _ elements Hfind).
    + intros strings ->. exact (Hall _ strings Hfind).
Qed.

Lemma getStringArray_by_members_witness :
  value_ Examples.arrays
  = VObject [("k", VArray [VString "a"; VInteger 2; VString "c"]);
             ("l", VArray [VString "a"; VString "b"]);
             ("e", VArray [])]
  /\ getStringArray Examples.arrays "zz"
     = Throw (Exception "key 'zz' missing or not an array in 'root'")
  /\ getStringArray Examples.arrays "k"
     = Throw (Exception "array 'k' does not contain all strings")
  /\ getStringArray Examples.arrays "l" = Return ["a"; "b"].
Proof.
  pose proof (getStringArray_by_members Examples.arrays _ "zz" eq_refl) as (Hzz & _).
  pose proof (getStringArray_by_members Examples.arrays _ "k" eq_refl) as (_ & Hk & _).
  pose proof (getStringArray_by_members Examples.arrays _ "l" eq_refl) as (_ & Hl & _).
  assert (Hno : ~ In (c_str "zz")
                  (map fst [("k", VArray [VString "a"; VInteger 2; VString "c"]);
                            ("l", VArray [VString "a"; VString "b"]);
                            ("e", VArray [])])).
  { simpl. intros [H|[H|[H|[]]]]; discriminate H. }
  assert (Hnil : ~ In (c_str "k") (map fst (@nil Member))) by (simpl; tauto).
  assert (Hbefore : ~ In (c_str "l")
                      (map fst [("k", VArray [VString "a"; VInteger 2; VString "c"])])).
  { simpl. intros [H|[]]. discriminate H. }
  destruct (Hk [] (VArray [VString "a"; VInteger 2; VString "c"])
              [("l", VArray [VString "a"; VString "b"]); ("e", VArray [])]
              eq_refl Hnil) as (_ & Hmixed & _).
  destruct (Hl [("k", VArray [VString "a"; VInteger 2; VString "c"])]
              (VArray [VString "a"; VString "b"]) [("e", VArray [])]
              eq_refl Hbefore) as (_ & _ & Hstrings).
  destruct (Hstrings ["a"; "b"] eq_refl) as [_ Hl'].
  split; [reflexivity|]. split; [exact (Hzz Hno)|].
  split; [exact (Hmixed _ eq_refl eq_refl)|exact (Hl' eq_refl)].
Defined.

(** C5, as stated, fails where a NUL byte stands in a string or in the key.
    The array of the one string a, NUL, b comes back as the array of the
    string a; and in {"a": ["x"]} the key a, NUL, b is absent, and
    [getStringArray] on it returns the strings of the member a. *)
Lemma getStringArray_with_NUL :
  (value_ Examples.nul_strings = VObject [("k", VArray [VString Examples.a_nul_b])]
   /\ getStringArray Examples.nul_strings "k" = Return ["a"]
   /\ Examples.a_nul_b <> "a")
  /\ (value_ WithNul.a_strings = VObject [("a", VArray [VString "x"])]
      /\ getStringArray WithNul.a_strings Examples.a_nul_b = Return ["x"]).
Proof.
  split; [split; [reflexivity|split; [reflexivity|discriminate]]|].
  split; reflexivity.
Qed.

(** ** The calls of iterate, by the members *)

Lemma uncut_names (members : list Member) :
  forallb (fun member => nul_free (fst member)) members = true ->
  map visit members = map (fun member => (fst member, mkObject (fst member) (snd member))) members.
Proof.
  induction members as [|member rest IH]; cbn [forallb map]; [reflexivity|].
  intros H. apply andb_prop in H. destruct H as [Hm Hrest].
  unfold visit at 1. rewrite (c_str_nul_free _ Hm), (IH Hrest). reflexivity.
Qed.

Lemma forallb_firstn {A : Type} (p : A -> bool) (n : nat) (l : list A) :
  forallb p l = true -> forallb p (firstn n l) = true.
Proof.
  revert l. induction n as [|n IH]; intros [|a l]; cbn [firstn forallb]; try reflexivity.
  intros H. apply andb_prop in H. destruct H as [Ha Hl]. now rewrite Ha, (IH l Hl).
Qed.

(** C6, as the code has it: [iterate] calls the callback on the members in
    declaration order, once each, up to and including the first call that
    does not ask to continue: either every member was visited and every call
    asked to continue, or the last call made is the first that did not, and
    no later member is visited.  The key passed for a member, and the name
    of the view passed with it, is the member's name read up to its first
    NUL byte: the name itself when no name of the object holds one. *)
Theorem iterate_calls_members_in_order_until_stop
    {S : Type} (callback : ObjectCallback S) (this : ObjectImplBase)
    (members : list Member) (s : S) :
  value_ this = VObject members ->
  exists (n : nat) (calls : list Call),
    iterate this (recording callback) (s, [])
    = (fst (iterate this callback s), (snd (iterate this callback s), calls))
    /\ map fst calls
       = map (fun member => (c_str (fst member),
                             mkObject (c_str (fst member)) (snd member)))
             (firstn n members)
    /\ (forallb (fun member => nul_free (fst member)) members = true ->
        map fst calls
        = map (fun member => (fst member, mkObject (fst member) (snd member)))
              (firstn n members))
    /\ ((n = List.length members /\ Forall (fun c => continues (snd c) = true) calls)
        \/ exists init c,
             calls = (init ++ [c])%list
             /\ Forall (fun c => continues (snd c) = true) init
             /\ continues (snd c) = false).
Proof.
  intros Hv.
  destruct (iterate_visits_members_in_order_until_stop callback this members s Hv)
    as (n & calls & Hrun & Hmap & Hend).
  exists n, calls. split; [exact Hrun|]. split; [exact Hmap|]. split; [|exact Hend].
  intros Hnul. rewrite Hmap. apply uncut_names. now apply forallb_firstn.
Qed.

Lemma iterate_calls_members_in_order_until_stop_witness :
  value_ Examples.xy = VObject [("x", VInteger 1); ("y", VInteger 2)]
  /\ exists (n : nat) (calls : list Call),
       iterate Examples.xy (recording (Examples.note_until "x")) ([], [])
       = (Return tt, (["x"], calls))
       /\ map fst calls
          = firstn n [("x", mkObject "x" (VInteger 1)); ("y", mkObject "y" (VInteger 2))]
       /\ ((n = 2%nat /\ Forall (fun c => continues (snd c) = true) calls)
           \/ exists init c,
                calls = (init ++ [c])%list
                /\ Forall (fun c => continues (snd c) = true) init
                /\ continues (snd c) = false).
Proof.
  split; [reflexivity|].
  destruct (iterate_calls_members_in_order_until_stop
              (Examples.note_until "x") Examples.xy
              [("x", VInteger 1); ("y", VInteger 2)] [] eq_refl)
    as (n & calls & Hrun & _ & Hnames & Hend).
  exists n, calls. split; [exact Hrun|]. split; [|exact Hend].
  rewrite (Hnames eq_refl). symmetry.
  exact (firstn_map (fun member : Member => (fst member, mkObject (fst member) (snd member)))
           n [("x", VInteger 1); ("y", VInteger 2)]).
Defined.

(** C6, as stated, fails for members whose names hold a NUL byte: over the
    object with the members named a, NUL, b and a, NUL, c the callback is
    called twice with the key a, which is the name of neither. *)
Lemma iterate_on_keys_with_NUL :
  value_ WithNul.nul_keys
  = VObject [(Examples.a_nul_b, VInteger 1); (WithNul.a_nul_c, VInteger 2)]
  /\ iterate WithNul.nul_keys (recording (Examples.note_until "none")) ([], [])
     = (Return tt,
        (["a"; "a"],
         [("a", mkObject "a" (VInteger 1), Return true);
          ("a", mkObject "a" (VInteger 2), Return true)]))
  /\ Examples.a_nul_b <> "a" /\ WithNul.a_nul_c <> "a".
Proof.
  split; [reflexivity|]. split; [reflexivity|]. split; discriminate.
Qed.

(** ** Loading, by the text before the first NUL byte *)


Lemma to_uint_nonnil (offset : N) : N.to_uint offset <> Decimal.Nil.
Proof.
  destruct offset as [|p]; [discriminate|]. apply DecimalPos.Unsigned.to_uint_nonnil.
Qed.







(** ** What the strict accessors return, by the members *)

(** X8: with the name read up to its first NUL byte (all of it when it
    holds none), a strict accessor returns exactly when the first member of
    this name is of its kind: [getBoolean] a boolean, [getDouble] a double,
    [getString] a string, which comes back read up to its first NUL byte,
    and [getInteger] an integer from -2^63 to 2^63 - 1, so that an integer
    from 2^63 on makes it throw. *)
Theorem strict_accessors_return_their_kind :
  forall (this : ObjectImplBase) (members : list Member) (k : string),
    value_ this = VObject members ->
    (forall b, getBoolean this k = Return b
               <-> exists before after,
                     members = (before ++ (c_str k, VBool b) :: after)%list
                     /\ ~ In (c_str k) (map fst before))
    /\ (forall i, getInteger this k = Return i
               <-> (- 2 ^ 63 <= i < 2 ^ 63
                    /\ exists before after,
                         members = (before ++ (c_str k, VInteger i) :: after)%list
                         /\ ~ In (c_str k) (map fst before)))
    /\ (forall d, getDouble this k = Return d
               <-> exists before after,
                     members = (before ++ (c_str k, VDouble d) :: after)%list
                     /\ ~ In (c_str k) (map fst before))
    /\ (forall s, getString this k = Return s
               <-> exists before t after,
                     members = (before ++ (c_str k, VString t) :: after)%list
                     /\ ~ In (c_str k) (map fst before)
                     /\ s = c_str t)
    /\ (forall before i after,
          members = (before ++ (c_str k, VInteger i) :: after)%list ->
          ~ In (c_str k) (map fst before) ->
          2 ^ 63 <= i ->
          getInteger this k = Throw (missing_or_not this "an integer" k))
    /\ (nul_free k = true -> c_str k = k).
Proof.
  intros this members k Hv.
  destruct (strict_accessors_by_lookup this k) as (Hb & Hi & Hd & Hs & Hbig).
  split; [|split; [|split; [|split; [|split]]]].
  - intros b. rewrite Hb. split.
    + intros [n Hfind].
      destruct (lookup_found this members k n _ Hv Hfind) as (_ & before & after & E & Hnot).
      now exists before, after.
    + intros (before & after & E & Hnot). subst members. exists (c_str k).
      exact (lookup_first_member this before after k _ Hv Hnot).
  - intros i. rewrite Hi. split.
    + intros [Hrange [n Hfind]]. split; [exact Hrange|].
      destruct (lookup_found this members k n _ Hv Hfind) as (_ & before & after & E & Hnot).
      now exists before, after.
    + intros [Hrange (before & after & E & Hnot)]. split; [exact Hrange|].
      subst members. exists (c_str k).
      exact (lookup_first_member this before after k _ Hv Hnot).
  - intros d. rewrite Hd. split.
    + intros [n Hfind].
      destruct (lookup_found this members k n _ Hv Hfind) as (_ & before & after & E & Hnot).
      now exists before, after.
    + intros (before & after & E & Hnot). subst members. exists (c_str k).
      exact (lookup_first_member this before after k _ Hv Hnot).
  - intros s. rewrite Hs. split.
    + intros (n & t & Hfind & ->).
      destruct (lookup_found this members k n _ Hv Hfind) as (_ & before & after & E & Hnot).
      now exists before, t, after.
    + intros (before & t & after & E & Hnot & ->). subst members. exists (c_str k), t.
      split; [|reflexivity].
      exact (lookup_first_member this before after k _ Hv Hnot).
  - intros before i after E Hnot Hi'. subst members.
    exact (Hbig _ i (lookup_first_member this before after k _ Hv Hnot) Hi').
  - apply c_str_nul_free.
Qed.

Lemma strict_accessors_return_their_kind_witness :
  value_ Examples.scalars
  = VObject [("flag", VBool true); ("n", VInteger 7);
             ("x", VDouble Examples.one_and_a_half); ("s", VString "str")]
  /\ getBoolean Examples.scalars "flag" = Return true
  /\ getInteger Examples.scalars "n" = Return 7.
Proof.
  destruct (strict_accessors_return_their_kind Examples.scalars _ "flag" eq_refl)
    as (Hflag & _).
  destruct (strict_accessors_return_their_kind Examples.scalars _ "n" eq_refl)
    as (_ & Hi & _).
  split; [reflexivity|]. split.
  - apply Hflag. exists [], [("n", VInteger 7);
                              ("x", VDouble Examples.one_and_a_half); ("s", VString "str")].
    split; [reflexivity|]. simpl. tauto.
  - apply Hi. split; [split; [discriminate|reflexivity]|].
    exists [("flag", VBool true)],
           [("x", VDouble Examples.one_and_a_half); ("s", VString "str")].
    split; [reflexivity|]. simpl. intros [H|[]]. discriminate H.
Defined.
